(** * BookBuddy: the retrieval-augmented generation core

    A shallow embedding of [src/text_processor.py], [src/vector_store.py],
    [src/ollama_client.py], [src/embeddings.py] and [src/rag_engine.py],
    with the properties of the chunker, the per-book vector index and the
    query orchestrator.

    Conventions of the embedding:
    - a Python [str] is a list of Unicode code points ([list N]);
    - a Python [int] is a [Z];
    - Python slicing [s[a:b]] keeps its treatment of negative and
      out-of-range bounds ([py_slice]);
    - a [while] loop that may run forever is a function with fuel whose
      result is [None] when the fuel runs out;
    - methods that mutate objects or raise are computations in a state and
      exception monad over the [world] of the process. *)

From Stdlib Require Import ZArith NArith Ascii String List Lia.
From stdpp Require Import base tactics option list numbers strings gmap pretty.

Local Open Scope Z_scope.

(** ** Python strings *)

Abbreviation str := (list N).

(** The code points of a literal. *)
Definition lit (s : string) : str :=
  List.map N_of_ascii (list_ascii_of_string s).

Definition SP : N := 32%N.
Definition LF : N := 10%N.
Definition CR : N := 13%N.

(** The Unicode character database outside Latin-1: which code points from
    256 on are white space ([str.isspace], [\s]) and which are alphanumeric
    ([str.isalnum]; [\w] adds the underscore).  Below 256 the tables are
    written out. *)
Class Ucd := {
  ucd_space : N -> bool;
  ucd_alnum : N -> bool
}.

(** A database with nothing beyond Latin-1: exact on every text whose code
    points are below 256. *)
Definition ucd_latin1 : Ucd :=
  {| ucd_space := fun _ => false; ucd_alnum := fun _ => false |}.

Definition between (lo hi c : N) : bool := ((lo <=? c) && (c <=? hi))%N.

Definition latin1_space (c : N) : bool :=
  between 9 13 c || between 28 32 c || (c =? 133)%N || (c =? 160)%N.

Definition latin1_alnum (c : N) : bool :=
  between 48 57 c || between 65 90 c || between 97 122 c
  || (c =? 170)%N || between 178 179 c || (c =? 181)%N
  || between 185 186 c || between 188 190 c
  || between 192 214 c || between 216 246 c || between 248 255 c.

Section Text.
Context {U : Ucd}.

Definition isspace (c : N) : bool :=
  if (c <? 256)%N then latin1_space c else ucd_space c.

Definition isalnum (c : N) : bool :=
  if (c <? 256)%N then latin1_alnum c else ucd_alnum c.

(** [\w] *)
Definition isword (c : N) : bool := isalnum c || (c =? 95)%N.

(** ** Slicing, [strip], [rfind] *)

(** A slice bound, as Python normalises it against length [n]. *)
Definition py_bound (n i : Z) : Z :=
  if i <? 0 then Z.max (i + n) 0 else Z.min i n.

(** [l[a:b]] *)
Definition py_slice {A} (l : list A) (a b : Z) : list A :=
  let n := Z.of_nat (length l) in
  let a' := py_bound n a in
  let b' := py_bound n b in
  take (Z.to_nat (b' - a')) (drop (Z.to_nat a') l).

(** [l[a:]] *)
Definition py_slice_from {A} (l : list A) (a : Z) : list A :=
  drop (Z.to_nat (py_bound (Z.of_nat (length l)) a)) l.

(** [l[:b]] *)
Definition py_slice_to {A} (l : list A) (b : Z) : list A :=
  take (Z.to_nat (py_bound (Z.of_nat (length l)) b)) l.

Fixpoint lstrip (s : str) : str :=
  match s with
  | c :: s' => if isspace c then lstrip s' else s
  | [] => []
  end.

Fixpoint rstrip (s : str) : str :=
  match s with
  | c :: s' =>
      match rstrip s' with
      | [] => if isspace c then [] else [c]
      | r => c :: r
      end
  | [] => []
  end.

(** [s.strip()] *)
Definition strip (s : str) : str := rstrip (lstrip s).

Fixpoint starts_with (sub s : str) : bool :=
  match sub, s with
  | [], _ => true
  | a :: sub', b :: s' => (a =? b)%N && starts_with sub' s'
  | _ :: _, [] => false
  end.

(** The highest index at or after [i] at which [sub] occurs in [s] (whose
    first character has index [i]), or [-1]. *)
Fixpoint rfind_from (s sub : str) (i : Z) : Z :=
  match s with
  | [] => if starts_with sub [] then i else -1
  | _ :: s' =>
      let r := rfind_from s' sub (i + 1) in
      if r =? -1 then (if starts_with sub s then i else -1) else r
  end.

(** [s.rfind(sub)] *)
Definition rfind (s sub : str) : Z := rfind_from s sub 0.

(** ** [preprocess_text] *)

(** [re.sub(r'\s+', ' ', text)]: every maximal run of white space becomes
    one space.  [in_run] tells that the previous character was white
    space, whose run has already been replaced. *)
Fixpoint sub_ws_runs (in_run : bool) (s : str) : str :=
  match s with
  | [] => []
  | c :: s' =>
      if isspace c
      then (if in_run then sub_ws_runs true s' else SP :: sub_ws_runs true s')
      else c :: sub_ws_runs false s'
  end.

(** The punctuation listed in the character class of the second
    substitution: full stop, comma, exclamation mark, question mark,
    semicolon, colon, apostrophe, double quote (code 34), the two
    parentheses and the hyphen. *)
Definition kept_punct : str := lit ".,!?;:'" ++ [34%N] ++ lit "()-".

(** The characters the second substitution leaves in place. *)
Definition kept (c : N) : bool :=
  isword c || isspace c || existsb (N.eqb c) kept_punct.

(** The second [re.sub]: every character that is neither [\w], nor [\s],
    nor listed punctuation is deleted. *)
Definition sub_special (s : str) : str := List.filter kept s.

(** [text.replace('\r\n', '\n')] *)
Fixpoint replace_crlf (s : str) : str :=
  match s with
  | c :: s' =>
      match s' with
      | d :: s'' =>
          if (c =? CR)%N && (d =? LF)%N then LF :: replace_crlf s''
          else c :: replace_crlf s'
      | [] => [c]
      end
  | [] => []
  end.

(** [text.replace('\r', '\n')] *)
Definition replace_cr (s : str) : str :=
  List.map (fun c => if (c =? CR)%N then LF else c) s.

Definition preprocess_text (text : str) : str :=
  let text := sub_ws_runs false text in
  let text := sub_special text in
  let text := replace_cr (replace_crlf text) in
  strip text.

(** ** [chunk_text] *)

(** The sentence-ending delimiters, in the order the source tries them. *)
Definition patterns : list str := [lit ". "; lit "! "; lit "? "; [LF]].

(** One round of the [for pattern in ...] loop on [best_break]. *)
Definition break_step (search_text : str) (search_start : Z)
    (best_break : option Z) (pattern : str) : option Z :=
  let pos := rfind search_text pattern in
  if pos =? -1 then best_break
  else
    let actual_pos := search_start + pos + Z.of_nat (length pattern) in
    match best_break with
    | None => Some actual_pos
    | Some b => if actual_pos >? b then Some actual_pos else best_break
    end.

(** The value of [end] when the chunk is cut: [start + chunk_size], moved
    to a sentence boundary when one is found near it. *)
Definition window_end (text : str) (chunk_size start : Z) : Z :=
  let text_length := Z.of_nat (length text) in
  let end_ := start + chunk_size in
  if end_ <? text_length then
    let search_start := Z.max (start + chunk_size - 100) start in
    let search_end := Z.min (start + chunk_size + 100) text_length in
    let search_text := py_slice text search_start search_end in
    let best_break :=
      fold_left (break_step search_text search_start) patterns None in
    match best_break with
    | Some b => if negb (b =? 0) && (b >? start) then b else end_
    | None => end_
    end
  else end_.

(** [chunks.append(chunk)] under [if chunk]. *)
Definition append_chunk (chunks : list str) (chunk : str) : list str :=
  match chunk with
  | [] => chunks
  | _ => chunks ++ [chunk]
  end.

(** The [while start < text_length] loop.  Every iteration costs one unit of
    fuel; [None] means the fuel ran out before the loop was left. *)
Fixpoint chunk_loop (fuel : nat) (text : str) (chunk_size chunk_overlap : Z)
    (start : Z) (chunks : list str) : option (list str) :=
  let text_length := Z.of_nat (length text) in
  if start <? text_length then
    match fuel with
    | O => None
    | S fuel' =>
        let end_ := window_end text chunk_size start in
        let chunk := strip (py_slice text start end_) in
        let chunks := append_chunk chunks chunk in
        let start := end_ - chunk_overlap in
        if start >=? text_length then Some chunks
        else chunk_loop fuel' text chunk_size chunk_overlap start chunks
    end
  else Some chunks.

Definition chunk_text (fuel : nat) (text : str)
    (chunk_size chunk_overlap : Z) : option (list str) :=
  match text with
  | [] => Some []
  | _ =>
      let text := preprocess_text text in
      chunk_loop fuel text chunk_size chunk_overlap 0 []
  end.

(** The raw windows [text[start:end]] the loop cuts, before they are
    trimmed: the same loop, collecting the slices. *)
Fixpoint window_loop (fuel : nat) (text : str) (chunk_size chunk_overlap : Z)
    (start : Z) : option (list str) :=
  let text_length := Z.of_nat (length text) in
  if start <? text_length then
    match fuel with
    | O => None
    | S fuel' =>
        let end_ := window_end text chunk_size start in
        let window := py_slice text start end_ in
        let start := end_ - chunk_overlap in
        if start >=? text_length then Some [window]
        else cons window <$> window_loop fuel' text chunk_size chunk_overlap start
    end
  else Some [].

(** Re-concatenation with the overlap regions removed: the first piece
    whole, every later piece without its first [overlap] characters. *)
Definition rejoin (overlap : nat) (pieces : list str) : str :=
  match pieces with
  | [] => []
  | p :: ps => p ++ concat (drop overlap <$> ps)
  end.

(** [sep.join(pieces)] *)
Fixpoint join (sep : str) (pieces : list str) : str :=
  match pieces with
  | [] => []
  | [p] => p
  | p :: ps => p ++ sep ++ join sep ps
  end.

(** ** Predicates on texts used in the statements *)

(** [bool(s)] for a string. *)
Definition nonempty (s : str) : bool :=
  match s with
  | [] => false
  | _ => true
  end.

(** A text is tidy when its only white space is the space character and no
    two of them are adjacent; [after_space] tells that the text follows a
    space. *)
Fixpoint tidy (after_space : bool) (s : str) : bool :=
  match s with
  | [] => true
  | c :: s' =>
      if isspace c then (c =? SP)%N && negb after_space && tidy true s'
      else tidy false s'
  end.

(** The first character of a trimmed text is not white space. *)
Definition starts_black (s : str) : bool :=
  match s with
  | [] => true
  | c :: _ => negb (isspace c)
  end.

(** A break candidate lies strictly after the start of the search. *)
Definition after (search_start : Z) (best_break : option Z) : Prop :=
  match best_break with
  | None => True
  | Some b => search_start + 1 <= b
  end.

End Text.

(** * The process around the chunker

    The embedding model (sentence-transformers), the ChromaDB client and
    the Ollama server are outside the repository.  They are interfaces
    here; what the repository's code does with their answers, and with
    their failures, is modelled in full.

    The ChromaDB client is a finite map from collection names to the
    entries of each collection.  It creates a collection only under a name
    it accepts ([valid_name]) and raises otherwise; [delete_collection]
    raises when the collection does not exist; [collection.delete] refuses
    the empty filter [where={}]: it raises and deletes nothing. *)

(** ** Data *)

Record metadata := {
  source : str;
  chunk_index : Z;
  total_chunks : Z
}.

(** A chunk as [create_chunks_with_metadata] builds it. *)
Record chunk := {
  text : str;
  meta : metadata
}.

(** [{"role": ..., "content": ...}] *)
Record message := {
  role : str;
  content : str
}.

(** The embedding model behind [EmbeddingGenerator]: [encode] is [None]
    when [SentenceTransformer.encode] raises. *)
Class EmbeddingModel := {
  vec : Type;
  encode : str -> option vec
}.

(** An entry of a collection. *)
Record entry `{EmbeddingModel} := {
  entry_id : str;
  entry_embedding : vec;
  entry_document : str;
  entry_metadata : metadata
}.

(** The ChromaDB client.  [valid_name] tells which collection names it
    accepts; a collection is never created under another name.  [nearest]
    is the nearest-neighbour search of [collection.query]: the entries,
    the query embedding and [n_results] give the hits with their
    distances, nearest first, or [None] when the client raises. *)
Class Chroma `{EmbeddingModel} := {
  valid_name : str -> bool;
  distance : Type;
  nearest : list entry -> vec -> Z -> option (list (entry * distance))
}.

(** What [requests.post] to [/api/chat] does.  [HttpFailed e] is a
    [RequestException] with text [e] (also from [raise_for_status]);
    [HttpOk c] is a reply whose JSON has message content [c], [None] when
    the key is missing. *)
Inductive http_reply :=
| HttpFailed (e : str)
| HttpOk (c : option str).

(** A streamed reply: the message content of each non-empty line received,
    and, when the transfer did not end normally, the [RequestException]
    raised after these lines (with no line at all when the server could not
    be reached or answered with an error status). *)
Record http_stream := {
  lines : list (option str);
  broken : option str
}.

Class Ollama := {
  post_chat : str -> list message -> http_reply;
  post_chat_stream : str -> list message -> http_stream
}.

Inductive exn :=
| ConnectionError (msg : str)
| EncodeError
| ChromaError.

(** The calls that reach the vector store's search and the generation
    backend, in the order they are made. *)
Inductive call :=
| SimilaritySearch (query book_name : str) (n_results : Z)
| Chat (model : str) (messages : list message)
| ChatStream (model : str) (messages : list message).

(** The mutable state: the collections of the ChromaDB client, the two
    fields [get_or_create_collection] sets on the [VectorStore], the
    [current_book] of the [RAGEngine], and the trace of calls. *)
Record world `{EmbeddingModel} := {
  collections : gmap str (list entry);
  vs_collection : option str;
  vs_current_book : option str;
  current_book : option str;
  calls : list call
}.

(** ** A state and exception monad *)

Inductive outcome (A : Type) :=
| Ok (a : A)
| Raise (e : exn).
Arguments Ok {A} a.
Arguments Raise {A} e.

Section Monad.
Context `{EmbeddingModel}.

Definition M (A : Type) : Type := world -> outcome A * world.

Definition ret {A} (a : A) : M A := fun w => (Ok a, w).

Definition bind {A B} (c : M A) (k : A -> M B) : M B :=
  fun w =>
    match c w with
    | (Ok a, w') => k a w'
    | (Raise e, w') => (Raise e, w')
    end.

Definition raise {A} (e : exn) : M A := fun w => (Raise e, w).

(** [try: c  except Exception: h] *)
Definition try_except {A} (c : M A) (h : M A) : M A :=
  fun w =>
    match c w with
    | (Ok a, w') => (Ok a, w')
    | (Raise _, w') => h w'
    end.

Definition gets {A} (f : world -> A) : M A := fun w => (Ok (f w), w).

Definition modify (f : world -> world) : M unit := fun w => (Ok tt, f w).

(** An external call that returns or raises. *)
Definition lift_option {A} (e : exn) (o : option A) : M A :=
  match o with
  | Some a => ret a
  | None => raise e
  end.

End Monad.

Notation "x <- c ;; k" := (bind c (fun x => k))
  (at level 100, c at next level, right associativity).
Notation "c ;;; k" := (bind c (fun _ => k))
  (at level 100, right associativity).

(** ** Field updates of the world *)

Section Process.
Context {U : Ucd} `{C : Chroma} {O : Ollama}.

Definition with_collections (f : gmap str (list entry) -> gmap str (list entry))
    (w : world) : world :=
  {| collections := f (collections w);
     vs_collection := vs_collection w;
     vs_current_book := vs_current_book w;
     current_book := current_book w;
     calls := calls w |}.

Definition with_vs_collection (c : option str) (w : world) : world :=
  {| collections := collections w;
     vs_collection := c;
     vs_current_book := vs_current_book w;
     current_book := current_book w;
     calls := calls w |}.

Definition with_vs_current_book (b : option str) (w : world) : world :=
  {| collections := collections w;
     vs_collection := vs_collection w;
     vs_current_book := b;
     current_book := current_book w;
     calls := calls w |}.

Definition with_current_book (b : option str) (w : world) : world :=
  {| collections := collections w;
     vs_collection := vs_collection w;
     vs_current_book := vs_current_book w;
     current_book := b;
     calls := calls w |}.

Definition with_call (c : call) (w : world) : world :=
  {| collections := collections w;
     vs_collection := vs_collection w;
     vs_current_book := vs_current_book w;
     current_book := current_book w;
     calls := calls w ++ [c] |}.

(** ** [create_chunks_with_metadata] *)

Definition create_chunks_with_metadata (fuel : nat) (text source : str)
    (chunk_size chunk_overlap : Z) : option (list chunk) :=
  match chunk_text fuel text chunk_size chunk_overlap with
  | Some chunks =>
      Some (imap (fun i c =>
              {| text := c;
                 meta := {| source := source; chunk_index := Z.of_nat i;
                            total_chunks := Z.of_nat (length chunks) |} |})
              chunks)
  | None => None
  end.

(** ** [embeddings.py] *)

Definition embed_text (t : str) : M vec :=
  lift_option EncodeError (encode t).

Definition embed_texts (texts : list str) : M (list vec) :=
  lift_option EncodeError (mapM encode texts).

(** ** The ChromaDB client and its collections

    A collection handle is the collection's name. *)

(** The collections after a successful
    [client.get_or_create_collection(name)]: an empty collection is
    created when there is none of that name. *)
Definition ensured (name : str) (m : gmap str (list entry)) : gmap str (list entry) :=
  match m !! name with
  | Some _ => m
  | None => <[name := []]> m
  end.

(** [client.get_or_create_collection(name)]: the collection of that name
    when there is one (its name was accepted when it was created);
    otherwise a new, empty collection when the client accepts the name,
    and an exception when it does not. *)
Definition client_get_or_create_collection (name : str) : M str :=
  c <- gets (fun w => collections w !! name) ;;
  match c with
  | Some _ => ret name
  | None =>
      if valid_name name
      then modify (with_collections (<[name := []]>)) ;;; ret name
      else raise ChromaError
  end.

Definition client_delete_collection (name : str) : M unit :=
  c <- gets (fun w => collections w !! name) ;;
  match c with
  | Some _ => modify (with_collections (delete name))
  | None => raise ChromaError
  end.

Definition client_list_collections : M (list str) :=
  gets (fun w => (map_to_list (collections w)).*1).

Definition collection_count (name : str) : M Z :=
  c <- gets (fun w => collections w !! name) ;;
  lift_option ChromaError ((fun es => Z.of_nat (length es)) <$> c).

(** [collection.delete(where={})]: the client refuses an empty filter; it
    raises and deletes nothing. *)
Definition collection_delete_where_empty (name : str) : M unit :=
  raise ChromaError.

Definition collection_add (name : str) (ids : list str) (embeddings : list vec)
    (documents : list str) (metadatas : list metadata) : M unit :=
  c <- gets (fun w => collections w !! name) ;;
  match c with
  | Some es =>
      let new :=
        zip_with (fun ie dm => {| entry_id := ie.1; entry_embedding := ie.2;
                                  entry_document := dm.1; entry_metadata := dm.2 |})
          (zip ids embeddings) (zip documents metadatas) in
      modify (with_collections (<[name := es ++ new]>))
  | None => raise ChromaError
  end.

Definition collection_query (name : str) (query_embedding : vec) (n_results : Z)
    : M (list (entry * distance)) :=
  c <- gets (fun w => collections w !! name) ;;
  match c with
  | Some es => lift_option ChromaError (nearest es query_embedding n_results)
  | None => raise ChromaError
  end.

(** ** [vector_store.py] *)

(** A search result as [similarity_search] formats it. *)
Record hit := {
  hit_text : str;
  hit_metadata : metadata;
  hit_distance : distance
}.

(** The collection name of a book: every character that is not
    alphanumeric replaced by an underscore, cut to 50 characters. *)
Definition safe_name (book_name : str) : str :=
  py_slice_to ((fun c => if isalnum c then c else 95%N) <$> book_name) 50.

Definition get_or_create_collection (book_name : str) : M str :=
  let safe_name := safe_name book_name in
  modify (with_vs_current_book (Some safe_name)) ;;;
  collection <- client_get_or_create_collection safe_name ;;
  modify (with_vs_collection (Some collection)) ;;;
  ret collection.

(** [for x in xs: body x] *)
Fixpoint for_each {A} (xs : list A) (body : A -> M unit) : M unit :=
  match xs with
  | [] => ret tt
  | x :: xs' => body x ;;; for_each xs' body
  end.

(** [range(0, n, step)] for a positive [step]. *)
Definition range_step (n step : nat) : list Z :=
  (fun k => Z.of_nat (k * step)) <$> seq 0 ((n + step - 1) / step).

Definition decimal (i : nat) : str := lit (pretty i).

Definition add_documents (chunks : list chunk) (book_name : str) : M Z :=
  collection <- get_or_create_collection book_name ;;
  existing <- collection_count collection ;;
  (if existing >? 0 then collection_delete_where_empty collection else ret tt) ;;;
  let texts := text <$> chunks in
  embeddings <- embed_texts texts ;;
  let ids := (fun i => book_name ++ lit "_" ++ decimal i) <$> seq 0 (length chunks) in
  let metadatas := meta <$> chunks in
  let batch_size := 100%nat in
  for_each (range_step (length chunks) batch_size) (fun i =>
    let end_ := Z.min (i + Z.of_nat batch_size) (Z.of_nat (length chunks)) in
    collection_add collection
      (py_slice ids i end_) (py_slice embeddings i end_)
      (py_slice texts i end_) (py_slice metadatas i end_)) ;;;
  ret (Z.of_nat (length chunks)).

Definition similarity_search (query book_name : str) (n_results : Z)
    : M (list hit) :=
  modify (with_call (SimilaritySearch query book_name n_results)) ;;;
  collection <- get_or_create_collection book_name ;;
  count <- collection_count collection ;;
  if count =? 0 then ret []
  else
    query_embedding <- embed_text query ;;
    count <- collection_count collection ;;
    results <- collection_query collection query_embedding (Z.min n_results count) ;;
    ret ((fun r => {| hit_text := entry_document r.1;
                      hit_metadata := entry_metadata r.1;
                      hit_distance := r.2 |}) <$> results).

Definition list_books : M (list str) := client_list_collections.

Definition delete_book (book_name : str) : M bool :=
  let safe_name := safe_name book_name in
  try_except
    (client_delete_collection safe_name ;;; ret true)
    (ret false).

(** ** [ollama_client.py] *)

Definition failed_to_communicate (e : str) : exn :=
  ConnectionError (lit "Failed to communicate with Ollama: " ++ e).

Definition chat (model : str) (messages : list message) : M str :=
  modify (with_call (Chat model messages)) ;;;
  match post_chat model messages with
  | HttpOk c => ret (default [] c)
  | HttpFailed e => raise (failed_to_communicate e)
  end.

(** A generator run to its end: what it yielded, in order, and the
    exception that ended it, if one did. *)
Definition G : Type := world -> (list str * option exn) * world.

Definition chat_stream (model : str) (messages : list message) : G :=
  fun w =>
    let reply := post_chat_stream model messages in
    ((List.filter nonempty (default [] <$> lines reply),
      failed_to_communicate <$> broken reply),
     with_call (ChatStream model messages) w).

(** ** [rag_engine.py] *)

Definition SYSTEM_PROMPT_head : str := lit
"You are a helpful book discussion assistant. Your role is to help users understand and discuss the book they are reading.

IMPORTANT RULES:
1. ONLY use information from the provided context passages below. Do not use your general knowledge about the book.
2. If the context doesn't contain enough information to answer the question, say so clearly.
3. NEVER reveal plot points, character fates, or events that are NOT in the provided context. This prevents spoilers.
4. When discussing characters, only mention what is known from the provided passages.
5. Be engaging and help the reader explore themes, characters, and ideas from the text.
6. If asked about something not in the context, politely explain that you can only discuss what's in the current reading.

CONTEXT FROM THE BOOK:
".

Definition SYSTEM_PROMPT_tail : str := lit "

Remember: Stay grounded in the provided context. Do not spoil anything beyond what's shown above.".

(** [SYSTEM_PROMPT.format(context=context)] *)
Definition system_message (context : str) : str :=
  SYSTEM_PROMPT_head ++ context ++ SYSTEM_PROMPT_tail.

Definition upload_first : str :=
  lit "Please upload a book first before asking questions.".

Definition no_passages : str :=
  lit "No relevant passages found in the book.".

(** [not self.current_book]: [None] and the empty string are both false. *)
Definition no_book (b : option str) : bool :=
  match b with
  | None | Some [] => true
  | Some _ => false
  end.

Definition set_book (book_name : str) : M unit :=
  modify (with_current_book (Some book_name)).

Definition _build_context (query : str) (n_chunks : Z) : M str :=
  b <- gets current_book ;;
  if no_book b then ret []
  else
    chunks <- similarity_search query (default [] b) n_chunks ;;
    match chunks with
    | [] => ret no_passages
    | _ =>
        ret (join [LF; LF]
               (imap (fun i c => lit "[Passage " ++ decimal (S i) ++ lit "]"
                                 ++ [LF] ++ hit_text c) chunks))
    end.

Definition _build_messages (query : str) (chat_history : list message)
    (context : str) : list message :=
  let system_message := system_message context in
  let messages := [{| role := lit "system"; content := system_message |}] in
  let history_limit := 20 in
  let recent_history :=
    match chat_history with
    | [] => []
    | _ => py_slice_from chat_history (- history_limit)
    end in
  let messages := messages ++ recent_history in
  messages ++ [{| role := lit "user"; content := query |}].

Definition query (question model : str) (chat_history : option (list message))
    (n_chunks : Z) : M str :=
  b <- gets current_book ;;
  if no_book b then ret upload_first
  else
    context <- _build_context question n_chunks ;;
    let messages := _build_messages question (default [] chat_history) context in
    response <- chat model messages ;;
    ret response.

Definition query_stream (question model : str)
    (chat_history : option (list message)) (n_chunks : Z) : G :=
  fun w =>
    if no_book (current_book w) then (([upload_first], None), w)
    else
      match _build_context question n_chunks w with
      | (Raise e, w') => (([], Some e), w')
      | (Ok context, w') =>
          let messages :=
            _build_messages question (default [] chat_history) context in
          chat_stream model messages w'
      end.

End Process.

(** * Concrete models and states *)

(** An embedding model that answers, one that raises, and a search that
    returns the first entries in the order of the collection. *)
Definition model_up : EmbeddingModel :=
  {| vec := list Z; encode := fun t => Some [Z.of_nat (length t)] |}.

Definition model_down : EmbeddingModel :=
  {| vec := list Z; encode := fun _ => None |}.

(** The names the ChromaDB client accepts, as its error message lists the
    rules: 3 to 63 characters; the first and the last an ASCII letter or
    digit; the others ASCII letters, digits, underscores, hyphens or
    full stops; no two full stops in a row; not an IPv4 address.  (Later
    versions of the client allow up to 512 characters; a sanitised name
    has at most 50.)  Written for names without line breaks, which is all
    that [safe_name] produces. *)
Definition ascii_alnum (c : N) : bool :=
  between 48 57 c || between 65 90 c || between 97 122 c.

Definition name_char (c : N) : bool :=
  ascii_alnum c || (c =? 46)%N || (c =? 95)%N || (c =? 45)%N.

Fixpoint two_periods (s : str) : bool :=
  match s with
  | a :: s' =>
      match s' with
      | b :: _ => ((a =? 46)%N && (b =? 46)%N) || two_periods s'
      | [] => false
      end
  | [] => false
  end.

(** The leading digits of a text, and the rest. *)
Fixpoint span_digits (s : str) : str * str :=
  match s with
  | c :: s' =>
      if between 48 57 c
      then (c :: (span_digits s').1, (span_digits s').2)
      else ([], s)
  | [] => ([], [])
  end.

(** One to three digits, and what follows them. *)
Definition octet (s : str) : option str :=
  let d := (span_digits s).1 in
  if (1 <=? length d)%nat && (length d <=? 3)%nat
  then Some (span_digits s).2 else None.

Definition after_period (o : option str) : option str :=
  match o with
  | Some (c :: r) => if (c =? 46)%N then Some r else None
  | _ => None
  end.

Definition is_ipv4 (s : str) : bool :=
  match after_period (octet s) with
  | Some s1 =>
      match after_period (octet s1) with
      | Some s2 =>
          match after_period (octet s2) with
          | Some s3 =>
              match octet s3 with
              | Some [] => true
              | _ => false
              end
          | None => false
          end
      | None => false
      end
  | None => false
  end.

Definition chroma_valid_name (name : str) : bool :=
  (3 <=? length name)%nat && (length name <=? 63)%nat
  && ascii_alnum (List.hd 0%N name) && ascii_alnum (List.last name 0%N)
  && forallb name_char name
  && negb (two_periods name) && negb (is_ipv4 name).

Definition chroma_of (m : EmbeddingModel) : @Chroma m :=
  {| valid_name := chroma_valid_name;
     distance := Z;
     nearest := fun es _ n =>
       if n <=? 0 then None else Some (take (Z.to_nat n) ((fun e => (e, 0)) <$> es)) |}.

(** A backend that cannot be reached, and one whose transfer breaks after
    two fragments. *)
Definition ollama_down : Ollama :=
  {| post_chat := fun _ _ => HttpFailed (lit "connection refused");
     post_chat_stream := fun _ _ =>
       {| lines := []; broken := Some (lit "connection refused") |} |}.

Definition ollama_cut : Ollama :=
  {| post_chat := fun _ _ => HttpOk (Some (lit "The cat sat."));
     post_chat_stream := fun _ _ =>
       {| lines := [Some (lit "The "); Some (lit "cat ")];
          broken := Some (lit "connection reset") |} |}.

Definition dune_meta : metadata :=
  {| source := lit "Dune"; chunk_index := 0; total_chunks := 1 |}.

Definition dune_chunk : chunk :=
  {| text := lit "Paul went to Arrakis."; meta := dune_meta |}.

Definition dune_entry (m : EmbeddingModel) (v : @vec m) : @entry m :=
  {| entry_id := lit "Dune_0"; entry_embedding := v;
     entry_document := lit "A beginning is a very delicate time.";
     entry_metadata := dune_meta |}.

(** Texts for the chunker. *)
Definition hash_text : str := lit "a # b".

Definition spaced_text : str := lit "  Hello,   world!  (again) ".

Definition early_stop_text : str :=
  lit "aaaaaaaa. bbbbbbbbbbbbbbbbbbbbbbbbbbbbbbbbbbbbbbbb".

Definition short_text : str := lit "abc d".

Definition market_text : str := lit "Alice met Bob. They went to the market.".

(** A process that has just started, and one in which the book [Dune] is
    indexed and current. *)
Definition fresh (m : EmbeddingModel) : @world m :=
  {| collections := ∅; vs_collection := None; vs_current_book := None;
     current_book := None; calls := [] |}.

Definition dune_loaded (m : EmbeddingModel) (v : @vec m) : @world m :=
  {| collections := {[ lit "Dune" := [dune_entry m v] ]};
     vs_collection := Some (lit "Dune");
     vs_current_book := Some (lit "Dune");
     current_book := Some (lit "Dune"); calls := [] |}.


(** A backend whose transfer ends normally, with one line that has no
    content. *)
Definition ollama_ok : Ollama :=
  {| post_chat := fun _ _ => HttpOk (Some (lit "The cat sat."));
     post_chat_stream := fun _ _ =>
       {| lines := [Some (lit "The "); Some (lit "cat "); None;
                    Some (lit "sat.")];
          broken := None |} |}.

(** A process in which [Dune] is current and not indexed. *)
Definition dune_current (m : EmbeddingModel) : @world m :=
  {| collections := ∅; vs_collection := None; vs_current_book := None;
     current_book := Some (lit "Dune"); calls := [] |}.

Definition dune_text : str := lit "Paul went to Arrakis.".

(** A text of deleted characters only. *)
Definition marks_text : str := lit "###".

(** One text for every exception that is not a [ConnectionError]. *)
Definition some_text : exn -> str := fun _ => lit "failed".

(** * The caller: [app.py]

    The Streamlit session state is a record; what the page displays while
    it works (spinners, placeholders) is left out, the alerts of
    [st.error] are kept.  Reading the uploaded file ([load_from_bytes])
    and splitting its name ([os.path.splitext]) are done outside: their
    results are arguments. *)

Record session := {
  ss_messages : list message;
  ss_current_book : option str;
  ss_book_loaded : bool;
  ss_book_text : str;
  ss_book_pages : list str;
  ss_current_page : Z;
  ss_alerts : list str
}.

Section App.
Context {U : Ucd} `{C : Chroma} {O : Ollama}.

(** [str(e)]: the text of a [ConnectionError] is its message; [describe]
    gives the texts of the exceptions of the embedding model and of
    ChromaDB. *)
Definition str_of_exn (describe : exn -> str) (e : exn) : str :=
  match e with
  | ConnectionError msg => msg
  | _ => describe e
  end.

(** The body of [if prompt := st.chat_input(...)] in [render_chat_panel]:
    the messages of the session after the turn. *)
Definition chat_input (describe : exn -> str) (prompt selected_model : str)
    (messages : list message) : world -> list message * world :=
  fun w =>
    let messages := messages ++ [{| role := lit "user"; content := prompt |}] in
    let run := query_stream prompt selected_model
                 (Some (py_slice_to messages (-1))) 5 w in
    let response :=
      match run.1.2 with
      | None => concat run.1.1
      | Some e => lit "Sorry, an error occurred: " ++ str_of_exn describe e
      end in
    (messages ++ [{| role := lit "assistant"; content := response |}], run.2).

Definition alert (a : str) (ss : session) : session :=
  {| ss_messages := ss_messages ss; ss_current_book := ss_current_book ss;
     ss_book_loaded := ss_book_loaded ss; ss_book_text := ss_book_text ss;
     ss_book_pages := ss_book_pages ss; ss_current_page := ss_current_page ss;
     ss_alerts := ss_alerts ss ++ [a] |}.

(** The session once the text is stored and split into pages. *)
Definition with_book_pages (t : str) (pages : list str) (ss : session) : session :=
  {| ss_messages := ss_messages ss; ss_current_book := ss_current_book ss;
     ss_book_loaded := ss_book_loaded ss; ss_book_text := t;
     ss_book_pages := pages; ss_current_page := 0;
     ss_alerts := ss_alerts ss |}.

(** The session once the book is indexed. *)
Definition with_book_loaded (book_name : str) (ss : session) : session :=
  {| ss_messages := []; ss_current_book := Some book_name;
     ss_book_loaded := true; ss_book_text := ss_book_text ss;
     ss_book_pages := ss_book_pages ss; ss_current_page := ss_current_page ss;
     ss_alerts := ss_alerts ss |}.

(** [process_uploaded_file].  [loaded] is what [load_from_bytes] does:
    [inr] the extracted text, or [inl] the text of the exception it
    raises; [book_name] is the file name without its extension.  The
    result is [None] when a call of [chunk_text] runs out of fuel. *)
Definition process_uploaded_file (fuel : nat) (describe : exn -> str)
    (loaded : str + str) (book_name : str) (ss : session) (w : world)
    : option (bool * session * world) :=
  match loaded with
  | inl e => Some (false, alert (lit "Error: " ++ e) ss, w)
  | inr t =>
      if nonempty (strip t) then
        match chunk_text fuel t 2000 0 with
        | None => None
        | Some pages =>
            let ss := with_book_pages t pages ss in
            match create_chunks_with_metadata fuel t book_name 1000 200 with
            | None => None
            | Some [] =>
                Some (false,
                      alert (lit "Could not process the book content.") ss, w)
            | Some chunks =>
                match add_documents chunks book_name w with
                | (Raise e, w') =>
                    Some (false,
                          alert (lit "Error: " ++ str_of_exn describe e) ss, w')
                | (Ok _, w') =>
                    Some (true, with_book_loaded book_name ss,
                          with_current_book (Some book_name) w')
                end
            end
        end
      else
        Some (false, alert (lit "Could not extract text from the file.") ss, w)
  end.

(** [s.split(sep)] for a separator of one character. *)
Fixpoint split_on (sep : N) (s : str) : list str :=
  match s with
  | [] => [[]]
  | c :: s' =>
      if (c =? sep)%N then [] :: split_on sep s'
      else
        match split_on sep s' with
        | p :: ps => (c :: p) :: ps
        | [] => [[c]]
        end
  end.

(** The text of a page as [render_book_reader] formats it: the trimmed
    non-empty lines, joined by two line breaks. *)
Definition format_page (content : str) : str :=
  join (lit "<br><br>")
    (strip <$> List.filter (fun p => nonempty (strip p)) (split_on LF content)).

End App.

(** A session in which no book was opened. *)
Definition new_session : session :=
  {| ss_messages := []; ss_current_book := None; ss_book_loaded := false;
     ss_book_text := []; ss_book_pages := []; ss_current_page := 0;
     ss_alerts := [] |}.

(** * Notions used in the further properties *)

Section Notions.
Context {U : Ucd} `{C : Chroma}.

(** A text is plain when its only white space is the space character: it
    has no tab, no newline, no carriage return. *)
Definition plain (s : str) : bool :=
  forallb (fun c => negb (isspace c) || (c =? SP)%N) s.

(** A book can be indexed: its collection is empty, or it has none and
    the client accepts its collection name. *)
Definition indexable (w : world) (book_name : str) : Prop :=
  match collections w !! safe_name book_name with
  | Some es => es = []
  | None => valid_name (safe_name book_name) = true
  end.

(** A break candidate lies at or before a limit. *)
Definition upto (limit : Z) (best_break : option Z) : Prop :=
  match best_break with
  | None => True
  | Some b => b <= limit
  end.

(** The entries [add_documents] builds for a book from its chunks and
    their embeddings: identifier [book_name_i], embedding, text and
    metadata of the [i]-th chunk. *)
Definition indexed (book_name : str) (chunks : list chunk) (embeddings : list vec)
    : list entry :=
  imap (fun i ce => {| entry_id := book_name ++ lit "_" ++ decimal i;
                       entry_embedding := ce.2;
                       entry_document := text ce.1;
                       entry_metadata := meta ce.1 |})
    (zip chunks embeddings).

End Notions.

(** * Properties of the text processor *)

#[local] Arguments isspace : simpl never.
#[local] Arguments kept : simpl never.

Section TextFacts.
Context {U : Ucd}.

(** ** White space and trimming *)

Lemma isspace_SP : isspace SP = true.
Proof. reflexivity. Qed.

Lemma isspace_CR : isspace CR = true.
Proof. reflexivity. Qed.

Lemma isspace_LF : isspace LF = true.
Proof. reflexivity. Qed.

Lemma kept_space c : isspace c = true -> kept c = true.
Proof. unfold kept. intros ->. by rewrite orb_true_r. Qed.

Lemma tidy_weaken b s : tidy true s = true -> tidy b s = true.
Proof.
  destruct b; [done|]. destruct s as [|c s]; simpl; [done|].
  destruct (isspace c); [|done]. rewrite andb_false_r. done.
Qed.

Lemma sub_ws_runs_tidy b s : tidy b (sub_ws_runs b s) = true.
Proof.
  revert b. induction s as [|c s IH]; intros b; simpl; [done|].
  destruct (isspace c) eqn:Hc.
  - destruct b; [apply IH|]. cbn [tidy]. rewrite isspace_SP, IH. done.
  - simpl. rewrite Hc. apply IH.
Qed.

Lemma sub_ws_runs_id b s : tidy b s = true -> sub_ws_runs b s = s.
Proof.
  revert b. induction s as [|c s IH]; intros b; simpl; [done|].
  destruct (isspace c) eqn:Hc.
  - intros H. apply andb_prop in H as [H Ht]. apply andb_prop in H as [Hsp Hb].
    apply N.eqb_eq in Hsp. destruct b; [done|]. subst c. f_equal. by apply IH.
  - intros H. f_equal. by apply IH.
Qed.

Lemma sub_ws_runs_kept b s :
  forallb kept s = true -> forallb kept (sub_ws_runs b s) = true.
Proof.
  revert b. induction s as [|c s IH]; intros b; simpl; [done|].
  intros H. apply andb_prop in H as [Hc Hs].
  destruct (isspace c); [destruct b|]; simpl; rewrite ?Hc, ?IH; try done.
Qed.

Lemma sub_special_id s : forallb kept s = true -> sub_special s = s.
Proof.
  unfold sub_special. induction s as [|c s IH]; simpl; [done|].
  intros H. apply andb_prop in H as [-> Hs]. f_equal. by apply IH.
Qed.

Lemma sub_special_kept s : forallb kept (sub_special s) = true.
Proof.
  unfold sub_special. induction s as [|c s IH]; simpl; [done|].
  destruct (kept c) eqn:Hc; simpl; rewrite ?Hc; done.
Qed.

Lemma tidy_not_CR b c s : tidy b (c :: s) = true -> (c =? CR)%N = false.
Proof.
  simpl. destruct (c =? CR)%N eqn:E; [|done].
  apply N.eqb_eq in E. subst c. rewrite isspace_CR. simpl. done.
Qed.

Lemma tidy_tail b c s : tidy b (c :: s) = true -> exists b', tidy b' s = true.
Proof.
  simpl. destruct (isspace c).
  - intros H. apply andb_prop in H as [_ H]. eauto.
  - eauto.
Qed.

Lemma replace_crlf_tidy b s : tidy b s = true -> replace_crlf s = s.
Proof.
  revert b. induction s as [|c s IH]; intros b H; [done|].
  pose proof (tidy_not_CR _ _ _ H) as Hc.
  destruct (tidy_tail _ _ _ H) as [b' Hs].
  cbn [replace_crlf]. destruct s as [|d s]; [done|].
  rewrite Hc. cbn [andb]. f_equal. by eapply IH.
Qed.

Lemma replace_cr_tidy b s : tidy b s = true -> replace_cr s = s.
Proof.
  unfold replace_cr. revert b. induction s as [|c s IH]; intros b H; [done|].
  pose proof (tidy_not_CR _ _ _ H) as Hc.
  destruct (tidy_tail _ _ _ H) as [b' Hs].
  cbn [List.map]. rewrite Hc. f_equal. by eapply IH.
Qed.

Lemma lstrip_tidy b s : tidy b s = true -> tidy false (lstrip s) = true.
Proof.
  revert b. induction s as [|c s IH]; intros b; [done|].
  cbn [lstrip]. destruct (isspace c) eqn:Hc.
  - intros H. destruct (tidy_tail _ _ _ H) as [b' Hs]. by eapply IH.
  - simpl. rewrite Hc. done.
Qed.

Lemma rstrip_tidy b s : tidy b s = true -> tidy b (rstrip s) = true.
Proof.
  revert b. induction s as [|c s IH]; intros b; [done|].
  cbn [rstrip tidy]. destruct (isspace c) eqn:Hc.
  - intros H. apply andb_prop in H as [H Ht]. apply IH in Ht.
    destruct (rstrip s) as [|d r]; [done|].
    cbn [tidy] in *. rewrite Hc, H. done.
  - intros Ht. apply IH in Ht.
    destruct (rstrip s) as [|d r]; cbn [tidy] in *; rewrite Hc; done.
Qed.

Lemma lstrip_kept s : forallb kept s = true -> forallb kept (lstrip s) = true.
Proof.
  induction s as [|c s IH]; [done|]. cbn [lstrip].
  destruct (isspace c); [|done]. simpl. intros H.
  apply andb_prop in H as [_ H]. by apply IH.
Qed.

Lemma rstrip_kept s : forallb kept s = true -> forallb kept (rstrip s) = true.
Proof.
  induction s as [|c s IH]; [done|]. cbn [rstrip]. simpl. intros H.
  apply andb_prop in H as [Hc H]. apply IH in H.
  destruct (rstrip s) as [|d r].
  - destruct (isspace c); simpl; rewrite ?Hc; done.
  - cbn [forallb] in *. rewrite Hc. done.
Qed.

Lemma lstrip_starts_black s : starts_black (lstrip s) = true.
Proof.
  induction s as [|c s IH]; [done|]. cbn [lstrip].
  destruct (isspace c) eqn:Hc; [done|]. simpl. by rewrite Hc.
Qed.

Lemma lstrip_id s : starts_black s = true -> lstrip s = s.
Proof.
  destruct s as [|c s]; [done|]. simpl. by destruct (isspace c).
Qed.

Lemma rstrip_starts_black s :
  starts_black s = true -> starts_black (rstrip s) = true.
Proof.
  destruct s as [|c s]; [done|]. cbn [rstrip starts_black].
  destruct (isspace c) eqn:Hc; [done|]. intros _.
  destruct (rstrip s); simpl; by rewrite Hc.
Qed.

Lemma rstrip_idemp s : rstrip (rstrip s) = rstrip s.
Proof.
  induction s as [|c s IH]; [done|]. cbn [rstrip].
  destruct (rstrip s) as [|d r] eqn:E.
  - destruct (isspace c) eqn:Hc; [done|]. simpl. by rewrite Hc.
  - cbn [rstrip] in *. rewrite IH. done.
Qed.

Lemma strip_idemp s : strip (strip s) = strip s.
Proof.
  unfold strip. rewrite (lstrip_id (rstrip (lstrip s))).
  - apply rstrip_idemp.
  - apply rstrip_starts_black, lstrip_starts_black.
Qed.

(** ** [preprocess_text] on its own output *)

(** On a text without deleted characters only the white-space substitution
    and the trimming act. *)
Lemma preprocess_text_kept_eq s :
  forallb kept s = true -> preprocess_text s = strip (sub_ws_runs false s).
Proof.
  intros H. unfold preprocess_text.
  rewrite (sub_special_id _ (sub_ws_runs_kept false s H)).
  rewrite (replace_crlf_tidy false _ (sub_ws_runs_tidy false s)).
  rewrite (replace_cr_tidy false _ (sub_ws_runs_tidy false s)).
  done.
Qed.

Lemma preprocess_text_tidy_fixed s :
  forallb kept s = true -> tidy false s = true -> preprocess_text s = strip s.
Proof.
  intros Hk Ht. rewrite preprocess_text_kept_eq by done.
  by rewrite sub_ws_runs_id.
Qed.

Lemma preprocess_text_idemp_kept s :
  forallb kept s = true -> preprocess_text (preprocess_text s) = preprocess_text s.
Proof.
  intros H. rewrite (preprocess_text_kept_eq s H).
  rewrite preprocess_text_tidy_fixed.
  - apply strip_idemp.
  - unfold strip. by apply rstrip_kept, lstrip_kept, sub_ws_runs_kept.
  - unfold strip. apply rstrip_tidy. eapply lstrip_tidy, sub_ws_runs_tidy.
Qed.

Lemma replace_crlf_step c d s :
  replace_crlf (c :: d :: s)
  = if (c =? CR)%N && (d =? LF)%N then LF :: replace_crlf s
    else c :: replace_crlf (d :: s).
Proof. reflexivity. Qed.

Lemma replace_crlf_kept_cons s :
  forallb kept s = true ->
  forallb kept (replace_crlf s) = true /\
  forall c, kept c = true -> forallb kept (replace_crlf (c :: s)) = true.
Proof.
  induction s as [|d s IH]; intros H.
  - split; [done|]. intros c Hc. simpl. by rewrite Hc.
  - cbn [forallb] in H. apply andb_prop in H as [Hd H].
    destruct (IH H) as [IH1 IH2]. split; [by apply IH2|].
    intros c Hc. rewrite replace_crlf_step.
    destruct ((c =? CR)%N && (d =? LF)%N); cbn [forallb].
    + by rewrite (kept_space LF isspace_LF), IH1.
    + rewrite Hc. by apply IH2.
Qed.

Lemma replace_crlf_kept s :
  forallb kept s = true -> forallb kept (replace_crlf s) = true.
Proof. intros H. by apply replace_crlf_kept_cons. Qed.

Lemma replace_cr_kept s :
  forallb kept s = true -> forallb kept (replace_cr s) = true.
Proof.
  unfold replace_cr. induction s as [|c s IH]; [done|]. simpl.
  intros H. apply andb_prop in H as [Hc H]. rewrite IH by done.
  destruct (c =? CR)%N; [|by rewrite Hc].
  by rewrite (kept_space LF isspace_LF).
Qed.

Lemma preprocess_text_kept s : forallb kept (preprocess_text s) = true.
Proof.
  unfold preprocess_text, strip.
  apply rstrip_kept, lstrip_kept, replace_cr_kept, replace_crlf_kept,
    sub_special_kept.
Qed.

(** From its second application on, [preprocess_text] changes nothing. *)
Lemma preprocess_text_idemp_twice s :
  preprocess_text (preprocess_text (preprocess_text s))
  = preprocess_text (preprocess_text s).
Proof. apply preprocess_text_idemp_kept, preprocess_text_kept. Qed.

(** C10 (amended): [preprocess_text] is idempotent on every text that
    contains none of the characters its second substitution deletes, that
    is, on every text made of word characters, white space and the listed
    punctuation. *)
Theorem preprocess_text_idempotent_on_kept (s : str) :
  forallb kept s = true ->
  preprocess_text (preprocess_text s) = preprocess_text s.
Proof. apply preprocess_text_idemp_kept. Qed.

End TextFacts.

(** C10 fails as stated: a deleted character between two spaces leaves a
    double space, which only a second application collapses. *)
Lemma preprocess_text_not_idempotent :
  @preprocess_text ucd_latin1 hash_text = lit "a  b" /\
  @preprocess_text ucd_latin1 (@preprocess_text ucd_latin1 hash_text)
  = lit "a b" /\
  @preprocess_text ucd_latin1 (@preprocess_text ucd_latin1 hash_text)
  <> @preprocess_text ucd_latin1 hash_text.
Proof. vm_compute. repeat split; discriminate. Qed.

(** The amended C10 at a text with repeated, leading and trailing white
    space. *)
Lemma preprocess_text_idempotent_on_kept_witness :
  forallb (@kept ucd_latin1) spaced_text = true /\
  @preprocess_text ucd_latin1 (@preprocess_text ucd_latin1 spaced_text)
  = @preprocess_text ucd_latin1 spaced_text.
Proof.
  split; [reflexivity|].
  apply (@preprocess_text_idempotent_on_kept ucd_latin1). reflexivity.
Defined.

(** * Properties of the chunker *)

Section ChunkFacts.
Context {U : Ucd}.

Lemma chunk_loop_S fuel text cs ov start chunks :
  chunk_loop (S fuel) text cs ov start chunks
  = if start <? Z.of_nat (length text) then
      let end_ := window_end text cs start in
      let chunks' := append_chunk chunks (strip (py_slice text start end_)) in
      if end_ - ov >=? Z.of_nat (length text) then Some chunks'
      else chunk_loop fuel text cs ov (end_ - ov) chunks'
    else Some chunks.
Proof. reflexivity. Qed.

Lemma window_loop_S fuel text cs ov start :
  window_loop (S fuel) text cs ov start
  = if start <? Z.of_nat (length text) then
      let end_ := window_end text cs start in
      if end_ - ov >=? Z.of_nat (length text)
      then Some [py_slice text start end_]
      else cons (py_slice text start end_)
             <$> window_loop fuel text cs ov (end_ - ov)
    else Some [].
Proof. reflexivity. Qed.

Lemma chunk_text_cons fuel c text cs ov :
  chunk_text fuel (c :: text) cs ov
  = chunk_loop fuel (preprocess_text (c :: text)) cs ov 0 [].
Proof. reflexivity. Qed.

(** When a window's end minus the overlap is the window's own start, the
    loop is back in the state it was in, with one more chunk: no amount
    of fuel lets it finish. *)
Lemma chunk_loop_stuck text cs ov start :
  start < Z.of_nat (length text) ->
  window_end text cs start - ov = start ->
  forall fuel chunks, chunk_loop fuel text cs ov start chunks = None.
Proof.
  intros Hlt Hback fuel. induction fuel as [|fuel IH]; intros chunks.
  - simpl. by rewrite (proj2 (Z.ltb_lt _ _) Hlt).
  - rewrite chunk_loop_S, (proj2 (Z.ltb_lt _ _) Hlt). cbn zeta.
    rewrite Hback.
    destruct (Z.geb_spec start (Z.of_nat (length text))); [lia|].
    apply IH.
Qed.

(** What the chunk loop returns is what it had, followed by the trimmed
    non-empty windows of the window loop. *)
Lemma chunk_loop_windows fuel text cs ov : forall start chunks,
  chunk_loop fuel text cs ov start chunks
  = (fun ws => fold_left append_chunk (strip <$> ws) chunks)
      <$> window_loop fuel text cs ov start.
Proof.
  induction fuel as [|fuel IH]; intros start chunks.
  - simpl. by destruct (start <? _).
  - rewrite chunk_loop_S, window_loop_S.
    destruct (start <? _); [|done]. cbn zeta.
    destruct (_ >=? _); [done|].
    rewrite IH. by destruct (window_loop fuel text cs ov _).
Qed.

(** More fuel does not change a result. *)
Lemma window_loop_mono text cs ov : forall n start ws,
  window_loop n text cs ov start = Some ws ->
  forall fuel, (n <= fuel)%nat -> window_loop fuel text cs ov start = Some ws.
Proof.
  induction n as [|n IH]; intros start ws Hws fuel Hfuel.
  - simpl in Hws. destruct fuel; [done|]. rewrite window_loop_S.
    by destruct (start <? _).
  - destruct fuel as [|fuel]; [lia|].
    rewrite window_loop_S in *.
    destruct (start <? _); [|done]. cbn zeta in *.
    destruct (_ >=? _); [done|].
    destruct (window_loop n text cs ov _) as [ws1|] eqn:E; [|done].
    rewrite (IH _ _ E fuel) by lia. done.
Qed.

(** ** Where a window ends *)

Lemma rfind_from_range s sub : forall i,
  rfind_from s sub i = -1 \/ i <= rfind_from s sub i.
Proof.
  induction s as [|c s IH]; intros i; cbn [rfind_from].
  - destruct (starts_with sub []); lia.
  - destruct (IH (i + 1)) as [E|E].
    + rewrite E. simpl. destruct (starts_with sub (c :: s)); lia.
    + destruct (Z.eqb_spec (rfind_from s sub (i + 1)) (-1)); [|lia].
      destruct (starts_with sub (c :: s)); lia.
Qed.

Lemma break_step_after st ss bb pattern :
  (1 <= length pattern)%nat -> after ss bb ->
  after ss (break_step st ss bb pattern).
Proof.
  intros Hlen Hbb. unfold break_step.
  destruct (Z.eqb_spec (rfind st pattern) (-1)) as [|Hpos]; [done|].
  assert (0 <= rfind st pattern)
    by (unfold rfind in *; destruct (rfind_from_range st pattern 0); lia).
  destruct bb as [b|]; simpl in *; [|lia].
  destruct (_ >? b); simpl; lia.
Qed.

Lemma fold_break_step_after st ss pats : forall bb,
  Forall (fun p => (1 <= length p)%nat) pats -> after ss bb ->
  after ss (fold_left (break_step st ss) pats bb).
Proof.
  induction pats as [|p pats IH]; intros bb Hp Hbb; [done|].
  inversion Hp; subst. simpl. apply IH; [done|].
  by apply break_step_after.
Qed.

Lemma patterns_nonempty : Forall (fun p : str => (1 <= length p)%nat) patterns.
Proof. unfold patterns. repeat constructor. Qed.

(** With [chunk_size >= 1] and an overlap of at most [chunk_size - 100]
    (and 0 for smaller chunk sizes) every window ends after its start plus
    the overlap: the next start advances. *)
Lemma window_end_advances text cs ov start :
  1 <= cs -> 0 <= ov <= Z.max (cs - 100) 0 ->
  start + ov + 1 <= window_end text cs start.
Proof.
  intros Hcs Hov. unfold window_end.
  destruct (_ <? _); [|lia].
  set (ss := Z.max (start + cs - 100) start).
  set (st := py_slice _ _ _).
  pose proof (fold_break_step_after st ss patterns None patterns_nonempty I) as H.
  destruct (fold_left _ _ _) as [b|]; [|lia].
  simpl in H. destruct (_ && _); lia.
Qed.

(** ** Slices with bounds in range *)

Lemma py_slice_nonneg {A} (l : list A) a b :
  0 <= a -> a <= b ->
  py_slice l a b = take (Z.to_nat b - Z.to_nat a) (drop (Z.to_nat a) l).
Proof.
  intros Ha Hab. unfold py_slice, py_bound.
  destruct (Z.ltb_spec a 0); [lia|]. destruct (Z.ltb_spec b 0); [lia|].
  destruct (Z.le_gt_cases a (Z.of_nat (length l))) as [Hal|Hal].
  - rewrite (Z.min_l a) by lia.
    destruct (Z.le_gt_cases b (Z.of_nat (length l))) as [Hbl|Hbl].
    + rewrite (Z.min_l b) by lia. f_equal. lia.
    + rewrite (Z.min_r b) by lia.
      rewrite !take_ge; [done| |]; rewrite length_drop; lia.
  - rewrite !(drop_ge l) by lia. by rewrite !take_nil.
Qed.

Lemma drop_py_slice {A} (l : list A) a b n :
  0 <= a -> a + Z.of_nat n <= b ->
  drop n (py_slice l a b) ++ drop (Z.to_nat b) l = drop (Z.to_nat a + n) l.
Proof.
  intros Ha Hab. rewrite py_slice_nonneg by lia.
  rewrite skipn_firstn_comm, drop_drop.
  replace (drop (Z.to_nat b) l)
    with (drop (Z.to_nat b - Z.to_nat a - n) (drop (Z.to_nat a + n) l))
    by (rewrite drop_drop; f_equal; lia).
  apply take_drop.
Qed.

(** ** Termination and reassembly *)

(** From a start in range the window loop ends within [length text - start]
    iterations, and its windows, each without its first [overlap]
    characters, make up the text from [start + overlap] on. *)
Lemma window_loop_tail text cs ov :
  1 <= cs -> 0 <= ov <= Z.max (cs - 100) 0 ->
  forall fuel start,
    0 <= start -> Z.of_nat (length text) - start <= Z.of_nat fuel ->
    exists ws,
      window_loop fuel text cs ov start = Some ws /\
      concat (drop (Z.to_nat ov) <$> ws) = drop (Z.to_nat (start + ov)) text.
Proof.
  intros Hcs Hov fuel.
  induction fuel as [|fuel IH]; intros start Hs Hfuel.
  - exists []. simpl. destruct (Z.ltb_spec start (Z.of_nat (length text))); [lia|].
    split; [done|]. rewrite drop_ge by lia. done.
  - rewrite window_loop_S.
    destruct (Z.ltb_spec start (Z.of_nat (length text))) as [Hlt|Hge].
    2:{ exists []. split; [done|]. rewrite drop_ge by lia. done. }
    pose proof (window_end_advances text cs ov start Hcs Hov) as Hadv.
    cbn zeta. set (e := window_end text cs start) in *.
    destruct (Z.geb_spec (e - ov) (Z.of_nat (length text))) as [Hout|Hin].
    + exists [py_slice text start e]. split; [done|].
      cbn [fmap list_fmap concat]. rewrite app_nil_r.
      pose proof (drop_py_slice text start e (Z.to_nat ov)) as Hd.
      rewrite (drop_ge text (Z.to_nat e)), app_nil_r in Hd by lia.
      rewrite Hd by lia. f_equal. lia.
    + destruct (IH (e - ov)) as (ws & Hws & Hcat); [lia..|].
      exists (py_slice text start e :: ws). rewrite Hws. split; [done|].
      cbn [fmap list_fmap concat]. fold (fmap (M:=list) (drop (A:=N) (Z.to_nat ov)) ws).
      rewrite Hcat. replace (e - ov + ov) with e by lia.
      rewrite drop_py_slice by lia. f_equal. lia.
Qed.

(** From start 0 the windows, rejoined without the overlap regions, are
    the whole text. *)
Lemma window_loop_rejoin text cs ov fuel :
  1 <= cs -> 0 <= ov <= Z.max (cs - 100) 0 ->
  (length text <= fuel)%nat ->
  exists ws,
    window_loop fuel text cs ov 0 = Some ws /\
    rejoin (Z.to_nat ov) ws = text.
Proof.
  intros Hcs Hov Hfuel. destruct fuel as [|fuel].
  { destruct text; [|simpl in Hfuel; lia]. by exists []. }
  rewrite window_loop_S.
  destruct (Z.ltb_spec 0 (Z.of_nat (length text))) as [Hlt|Hge].
  2:{ exists []. destruct text; [done|simpl in Hge; lia]. }
  pose proof (window_end_advances text cs ov 0 Hcs Hov) as Hadv.
  cbn zeta. set (e := window_end text cs 0) in *.
  pose proof (drop_py_slice text 0 e 0) as Hd. simpl in Hd.
  rewrite drop_0 in Hd.
  destruct (Z.geb_spec (e - ov) (Z.of_nat (length text))) as [Hout|Hin].
  - exists [py_slice text 0 e]. split; [done|]. simpl. rewrite app_nil_r.
    rewrite (drop_ge text (Z.to_nat e)), app_nil_r in Hd by lia.
    apply Hd; lia.
  - destruct (window_loop_tail text cs ov Hcs Hov fuel (e - ov))
      as (ws & Hws & Hcat); [lia..|].
    exists (py_slice text 0 e :: ws). rewrite Hws. split; [done|].
    cbn [rejoin]. rewrite Hcat. replace (e - ov + ov) with e by lia.
    apply Hd; lia.
Qed.

Lemma fold_append_chunk l : forall acc,
  fold_left append_chunk l acc = acc ++ List.filter nonempty l.
Proof.
  induction l as [|c l IH]; intros acc; simpl; [by rewrite app_nil_r|].
  rewrite IH. destruct c; simpl; [done|]. by rewrite <- app_assoc.
Qed.

(** With [chunk_size >= 1] and [0 <= chunk_overlap <= max (chunk_size - 100) 0]
    (the defaults 1000 and 200, and the page split 2000 and 0, are such)
    [chunk_text] returns, within as many iterations as the normalised text
    has characters. *)
Lemma chunk_text_returns text cs ov fuel :
  1 <= cs -> 0 <= ov <= Z.max (cs - 100) 0 ->
  (length (preprocess_text text) <= fuel)%nat ->
  is_Some (chunk_text fuel text cs ov).
Proof.
  intros Hcs Hov Hfuel. destruct text as [|c text]; [by eexists|].
  rewrite chunk_text_cons, chunk_loop_windows.
  destruct (window_loop_rejoin (preprocess_text (c :: text)) cs ov fuel)
    as (ws & -> & _); [done..|]. by eexists.
Qed.

Lemma lstrip_split s :
  exists l, s = l ++ lstrip s /\ forallb isspace l = true.
Proof.
  induction s as [|c s (l & Hs & Hl)]; [by exists []|]. cbn [lstrip].
  destruct (isspace c) eqn:Hc; [|by exists []].
  exists (c :: l). split; [simpl; by rewrite <- Hs|]. simpl. by rewrite Hc.
Qed.

Lemma rstrip_split s :
  exists r, s = rstrip s ++ r /\ forallb isspace r = true.
Proof.
  induction s as [|c s (r & Hs & Hr)]; [by exists []|]. cbn [rstrip].
  destruct (rstrip s) as [|d k] eqn:E.
  - destruct (isspace c) eqn:Hc.
    + exists (c :: s). split; [done|]. simpl in Hs. subst r.
      simpl. by rewrite Hc.
    + exists r. split; [simpl in *; by rewrite <- Hs|done].
  - exists r. split; [|done]. rewrite Hs at 1. done.
Qed.

(** Trimming removes white space at the two ends and nothing else. *)
Lemma strip_split s :
  exists l r,
    s = l ++ strip s ++ r /\
    forallb isspace l = true /\ forallb isspace r = true.
Proof.
  destruct (lstrip_split s) as (l & Hl & Hsl).
  destruct (rstrip_split (lstrip s)) as (r & Hr & Hsr).
  exists l, r. unfold strip. by rewrite <- Hr, <- Hl.
Qed.

(** C8 (amended): for [chunk_size >= 1] and
    [0 <= chunk_overlap <= max (chunk_size - 100) 0], [chunk_text] returns,
    and the chunks it emits are the trimmed non-empty ones among
    consecutive windows of the normalised input; these windows, rejoined
    with the first [chunk_overlap] characters of every window but the
    first removed, are exactly the normalised input; and each window is
    its trimmed form between two runs of white space. *)
Theorem chunk_text_windows_rejoin (text : str) (cs ov : Z) :
  1 <= cs -> 0 <= ov <= Z.max (cs - 100) 0 ->
  exists windows : list str,
    (forall fuel, (length (preprocess_text text) <= fuel)%nat ->
       chunk_text fuel text cs ov
       = Some (List.filter nonempty (strip <$> windows))) /\
    rejoin (Z.to_nat ov) windows = preprocess_text text /\
    Forall (fun w => exists l r,
                w = l ++ strip w ++ r /\
                forallb isspace l = true /\ forallb isspace r = true)
      windows.
Proof.
  intros Hcs Hov. destruct text as [|c text].
  { exists []. split; [done|]. split; [reflexivity|done]. }
  set (t := preprocess_text (c :: text)).
  destruct (window_loop_rejoin t cs ov (length t)) as (ws & Hws & Hre);
    [done..|].
  exists ws. split; [|split; [done|]].
  2:{ apply Forall_forall. intros w _. apply strip_split. }
  intros fuel Hfuel.
  rewrite chunk_text_cons, chunk_loop_windows. fold t.
  rewrite (window_loop_mono _ _ _ _ _ _ Hws fuel Hfuel).
  simpl. by rewrite fold_append_chunk.
Qed.

End ChunkFacts.

(** C2 fails on the code: with chunk size 40 and overlap 10, on a text
    whose only sentence end near the first boundary is at offset 10, the
    first window ends at 10 and the next start is 0 again.  The loop has
    no test that the start advanced, and never returns. *)
Theorem chunk_text_runs_forever :
  forall fuel, @chunk_text ucd_latin1 fuel early_stop_text 40 10 = None.
Proof.
  intros fuel.
  set (t := early_stop_text).
  assert (Ht : exists c r, t = c :: r) by (vm_compute; eauto).
  destruct Ht as (c & r & Ht). rewrite Ht, chunk_text_cons, <- Ht.
  assert (Hp : @preprocess_text ucd_latin1 t = t) by (vm_compute; reflexivity).
  rewrite Hp. apply chunk_loop_stuck.
  - vm_compute. reflexivity.
  - vm_compute. reflexivity.
Qed.

(** C8 fails as stated, already without overlap: the chunks of [abc d]
    for chunk size 2 are [ab], [c] and [d]; the space trimmed from the
    second window is in no chunk, so neither their concatenation nor
    their concatenation with a space in between normalises to the
    normalised input. *)
Lemma chunk_text_rejoin_loses_space :
  @chunk_text ucd_latin1 5 short_text 2 0
  = Some [lit "ab"; lit "c"; lit "d"] /\
  @preprocess_text ucd_latin1 (rejoin 0 [lit "ab"; lit "c"; lit "d"])
  <> @preprocess_text ucd_latin1 short_text /\
  @preprocess_text ucd_latin1 (join [SP] [lit "ab"; lit "c"; lit "d"])
  <> @preprocess_text ucd_latin1 short_text.
Proof. vm_compute. repeat split; discriminate. Qed.

(** The amended C8 at the default parameters. *)
Lemma chunk_text_windows_rejoin_witness :
  (1 <= 1000 /\ 0 <= 200 <= Z.max (1000 - 100) 0) /\
  exists windows : list str,
    (forall fuel,
       (length (@preprocess_text ucd_latin1 market_text) <= fuel)%nat ->
       @chunk_text ucd_latin1 fuel market_text 1000 200
       = Some (List.filter nonempty (@strip ucd_latin1 <$> windows))) /\
    rejoin (Z.to_nat 200) windows = @preprocess_text ucd_latin1 market_text /\
    Forall (fun w => exists l r,
                w = l ++ @strip ucd_latin1 w ++ r /\
                forallb (@isspace ucd_latin1) l = true /\
                forallb (@isspace ucd_latin1) r = true)
      windows.
Proof.
  split; [lia|].
  apply (@chunk_text_windows_rejoin ucd_latin1 market_text 1000 200); lia.
Defined.

(** * Properties of the vector store *)

Section StoreFacts.
Context {U : Ucd} `{C : Chroma} {O : Ollama}.

Lemma lookup_ensured (name : str) (m : gmap str (list entry)) :
  ensured name m !! name = Some (default [] (m !! name)).
Proof.
  unfold ensured. destruct (m !! name) as [es|] eqn:E; [done|].
  by rewrite lookup_insert_eq.
Qed.

Lemma list_books_run w :
  list_books w = (Ok (map_to_list (collections w)).*1, w).
Proof. reflexivity. Qed.

Lemma elem_of_books (name : str) (m : gmap str (list entry)) :
  name ∈ (map_to_list m).*1 <-> is_Some (m !! name).
Proof.
  rewrite list_elem_of_fmap. split.
  - intros [[k v] [-> Hin]]. apply elem_of_map_to_list in Hin. by eexists.
  - intros [v Hv]. exists (name, v). split; [done|].
    by apply elem_of_map_to_list.
Qed.

(** C4 (amended): [delete_book] returns [True] when the book's collection
    exists, and removes it; when the collection does not exist the client
    raises, [delete_book] catches the exception and returns [False], and
    the store is unchanged. *)
Theorem delete_book_result (b : str) (w : world) :
  delete_book b w
  = match collections w !! safe_name b with
    | Some _ => (Ok true, with_collections (delete (safe_name b)) w)
    | None => (Ok false, w)
    end.
Proof.
  unfold delete_book, try_except, bind, client_delete_collection, bind, gets.
  by destruct (collections w !! safe_name b).
Qed.

End StoreFacts.

(** * Properties of the orchestrator *)

Section EngineFacts.
Context {U : Ucd} `{C : Chroma} {O : Ollama}.

(** [chat_history[-20:]] is the list without its first [length - 20]
    elements. *)
Lemma py_slice_from_last {A} (l : list A) (k : Z) :
  0 < k -> py_slice_from l (- k) = drop (length l - Z.to_nat k) l.
Proof.
  intros Hk. unfold py_slice_from, py_bound.
  destruct (Z.ltb_spec (- k) 0); [|lia]. f_equal. lia.
Qed.

(** C7: the messages sent to the backend are the system message built
    from the context, then the last [min (length h) 20] messages of the
    history [h] in their order, then the question as a user message; the
    first [length h - 20] messages of [h] are left out. *)
Theorem build_messages_window (q : str) (h : list message) (context : str) :
  _build_messages q h context
  = {| role := lit "system"; content := system_message context |}
      :: drop (length h - 20) h ++ [{| role := lit "user"; content := q |}]
  /\ length (drop (length h - 20) h) = Nat.min (length h) 20
  /\ take (length h - 20) h ++ drop (length h - 20) h = h.
Proof.
  split; [|split].
  - unfold _build_messages. destruct h as [|m h]; [done|].
    by rewrite py_slice_from_last.
  - rewrite length_drop. lia.
  - apply take_drop.
Qed.

(** C6: with no current book, [query] returns the fixed message and
    [query_stream] yields it and nothing else; both leave the world as it
    was, so that the trace of calls to the search and to the backend has
    not grown. *)
Theorem query_without_book (question model : str)
    (h : option (list message)) (n : Z) (w : world) :
  no_book (current_book w) = true ->
  query question model h n w = (Ok upload_first, w) /\
  query_stream question model h n w = (([upload_first], None), w) /\
  calls (query question model h n w).2 = calls w /\
  calls (query_stream question model h n w).2 = calls w.
Proof.
  intros Hno.
  assert (query question model h n w = (Ok upload_first, w)) as ->
    by (unfold query, bind, gets; by rewrite Hno).
  assert (query_stream question model h n w = (([upload_first], None), w)) as ->
    by (unfold query_stream; by rewrite Hno).
  done.
Qed.

(** C3 (amended): when the transfer from the backend breaks, at once or
    after some fragments, [query_stream] yields the fragments received
    before the break and then raises [ConnectionError] to its caller; it
    yields no fragment of its own. *)
Theorem query_stream_backend_failure (question model : str)
    (h : option (list message)) (n : Z) (w w' : world) (context e : str) :
  no_book (current_book w) = false ->
  _build_context question n w = (Ok context, w') ->
  broken (post_chat_stream model
            (_build_messages question (default [] h) context)) = Some e ->
  query_stream question model h n w
  = ((List.filter nonempty
        (default [] <$>
           lines (post_chat_stream model
                    (_build_messages question (default [] h) context))),
      Some (ConnectionError (lit "Failed to communicate with Ollama: " ++ e))),
     with_call
       (ChatStream model (_build_messages question (default [] h) context)) w').
Proof.
  intros Hbook Hctx Hbroken.
  unfold query_stream. rewrite Hbook, Hctx.
  unfold chat_stream. by rewrite Hbroken.
Qed.

End EngineFacts.

(** * Concrete runs *)

Section ModelDown.
#[local] Existing Instance ucd_latin1.
#[local] Existing Instance model_down.
#[local] Existing Instance chroma_of.

(** C4 fails as stated: deleting a book that was never indexed returns
    [False]. *)
Lemma delete_book_missing_returns_false :
  collections (fresh model_down) !! safe_name (lit "Dune") = None /\
  delete_book (lit "Dune") (fresh model_down) = (Ok false, fresh model_down).
Proof. vm_compute. done. Qed.

End ModelDown.

Section BackendDown.
#[local] Existing Instance ucd_latin1.
#[local] Existing Instance model_up.
#[local] Existing Instance chroma_of.

(** C6 on a process that has just started. *)
Lemma query_without_book_witness :
  no_book (current_book (fresh model_up)) = true /\
  query (O:=ollama_down) (lit "Who is Paul?") (lit "llama3") None 5
    (fresh model_up)
  = (Ok upload_first, fresh model_up) /\
  query_stream (O:=ollama_down) (lit "Who is Paul?") (lit "llama3") None 5
    (fresh model_up)
  = (([upload_first], None), fresh model_up).
Proof.
  split; [reflexivity|].
  pose proof (query_without_book (O:=ollama_down) (lit "Who is Paul?")
                (lit "llama3") None 5 (fresh model_up)) as H.
  split; apply H; reflexivity.
Defined.

(** C3 fails as stated: with the backend out of reach [query_stream]
    yields nothing and raises; with a transfer that breaks after two
    fragments it yields the two fragments and raises.  In neither run is
    a fragment describing the failure yielded. *)
Lemma query_stream_failure_raises :
  (query_stream (O:=ollama_down) (lit "Who is Paul?") (lit "llama3") None 5
     (dune_loaded model_up [36])).1
  = ([], Some (ConnectionError
                 (lit "Failed to communicate with Ollama: connection refused")))
  /\
  (query_stream (O:=ollama_cut) (lit "Who is Paul?") (lit "llama3") None 5
     (dune_loaded model_up [36])).1
  = ([lit "The "; lit "cat "],
     Some (ConnectionError
             (lit "Failed to communicate with Ollama: connection reset"))).
Proof. vm_compute. done. Qed.

(** The amended C3 on the run that breaks after two fragments. *)
Lemma query_stream_backend_failure_witness :
  no_book (current_book (dune_loaded model_up [36])) = false /\
  (query_stream (O:=ollama_cut) (lit "Who is Paul?") (lit "llama3") None 5
     (dune_loaded model_up [36])).1
  = ([lit "The "; lit "cat "],
     Some (ConnectionError
             (lit "Failed to communicate with Ollama: connection reset"))).
Proof.
  split; [reflexivity|].
  erewrite (query_stream_backend_failure (O:=ollama_cut) (lit "Who is Paul?")
              (lit "llama3") None 5 (dune_loaded model_up [36]) _ _
              (lit "connection reset")).
  - reflexivity.
  - reflexivity.
  - vm_compute. reflexivity.
  - reflexivity.
Defined.

End BackendDown.

(** * Further properties of the text processor *)

Section MoreTextFacts.
Context {U : Ucd}.

Lemma plain_cons c s :
  plain (c :: s) = (negb (isspace c) || (c =? SP)%N) && plain s.
Proof. reflexivity. Qed.

Lemma sub_ws_runs_plain b s : plain (sub_ws_runs b s) = true.
Proof.
  revert b. induction s as [|c s IH]; intros b; [done|]. cbn [sub_ws_runs].
  destruct (isspace c) eqn:Hc.
  - destruct b; [apply IH|]. rewrite plain_cons, IH, isspace_SP. done.
  - rewrite plain_cons, IH, Hc. done.
Qed.

Lemma sub_special_plain s : plain s = true -> plain (sub_special s) = true.
Proof.
  unfold sub_special. induction s as [|c s IH]; [done|].
  rewrite plain_cons. intros H. apply andb_prop in H as [Hc Hs].
  cbn [List.filter]. destruct (kept c); [|by apply IH].
  rewrite plain_cons, Hc. by apply IH.
Qed.

Lemma plain_not_CR c s : plain (c :: s) = true -> (c =? CR)%N = false.
Proof.
  rewrite plain_cons. destruct (c =? CR)%N eqn:E; [|done].
  apply N.eqb_eq in E. subst c. by rewrite isspace_CR.
Qed.

Lemma plain_tail c s : plain (c :: s) = true -> plain s = true.
Proof. rewrite plain_cons. intros H. by apply andb_prop in H as [_ H]. Qed.

Lemma replace_crlf_plain s : plain s = true -> replace_crlf s = s.
Proof.
  induction s as [|c s IH]; intros H; [done|].
  pose proof (plain_not_CR _ _ H) as Hc. apply plain_tail in H.
  destruct s as [|d s]; [done|].
  rewrite replace_crlf_step, Hc. cbn [andb]. f_equal. by apply IH.
Qed.

Lemma replace_cr_plain s : plain s = true -> replace_cr s = s.
Proof.
  unfold replace_cr. induction s as [|c s IH]; intros H; [done|].
  pose proof (plain_not_CR _ _ H) as Hc. apply plain_tail in H.
  cbn [List.map]. rewrite Hc. f_equal. by apply IH.
Qed.

(** The replacement of line endings never changes anything: all white
    space is a space by then. *)
Lemma preprocess_text_steps s :
  preprocess_text s = strip (sub_special (sub_ws_runs false s)).
Proof.
  unfold preprocess_text.
  pose proof (sub_special_plain _ (sub_ws_runs_plain false s)) as H.
  by rewrite (replace_crlf_plain _ H), (replace_cr_plain _ H).
Qed.

Lemma elem_of_lstrip x s : x ∈ lstrip s -> x ∈ s.
Proof.
  induction s as [|c s IH]; [done|]. cbn [lstrip].
  destruct (isspace c); [|done]. intros H. right. by apply IH.
Qed.

Lemma elem_of_rstrip x s : x ∈ rstrip s -> x ∈ s.
Proof.
  induction s as [|c s IH]; [done|]. cbn [rstrip].
  destruct (rstrip s) as [|d r].
  - destruct (isspace c); [by intros ?%elem_of_nil|].
    intros ->%list_elem_of_singleton. left.
  - intros [->|H]%elem_of_cons; [left|right; by apply IH].
Qed.

Lemma elem_of_strip x s : x ∈ strip s -> x ∈ s.
Proof. intros H. by apply elem_of_lstrip, elem_of_rstrip. Qed.

Lemma elem_of_py_slice {A} (x : A) l a b : x ∈ py_slice l a b -> x ∈ l.
Proof.
  unfold py_slice. intros H.
  by apply (subseteq_drop (Z.to_nat (py_bound (Z.of_nat (length l)) a))),
    (subseteq_take (Z.to_nat (py_bound (Z.of_nat (length l)) b
                              - py_bound (Z.of_nat (length l)) a))).
Qed.

(** A property of characters that holds throughout a text holds
    throughout every text made of its characters. *)
Lemma forallb_elem_of (f : N -> bool) (c s : str) :
  (forall x, x ∈ c -> x ∈ s) -> forallb f s = true -> forallb f c = true.
Proof.
  intros Hsub Hs. apply forallb_forall. intros x Hx.
  apply list_elem_of_In, Hsub, list_elem_of_In in Hx.
  by apply (proj1 (forallb_forall f s) Hs).
Qed.

Lemma length_lstrip s : (length (lstrip s) <= length s)%nat.
Proof.
  induction s as [|c s IH]; [done|]. cbn [lstrip].
  destruct (isspace c); simpl; lia.
Qed.

Lemma length_rstrip s : (length (rstrip s) <= length s)%nat.
Proof.
  induction s as [|c s IH]; [done|]. cbn [rstrip].
  destruct (rstrip s); [destruct (isspace c)|]; simpl in *; lia.
Qed.

Lemma length_strip s : (length (strip s) <= length s)%nat.
Proof.
  unfold strip. pose proof (length_rstrip (lstrip s)).
  pose proof (length_lstrip s). lia.
Qed.

Lemma length_sub_ws_runs b s : (length (sub_ws_runs b s) <= length s)%nat.
Proof.
  revert b. induction s as [|c s IH]; intros b; [done|]. cbn [sub_ws_runs].
  pose proof (IH true). pose proof (IH false).
  destruct (isspace c); [destruct b|]; simpl; lia.
Qed.

Lemma length_sub_special s : (length (sub_special s) <= length s)%nat.
Proof.
  unfold sub_special. induction s as [|c s IH]; [done|]. simpl.
  destruct (kept c); simpl; lia.
Qed.

Lemma strip_plain s : plain s = true -> plain (strip s) = true.
Proof. apply forallb_elem_of. intros x. apply elem_of_strip. Qed.

Lemma preprocess_text_plain s : plain (preprocess_text s) = true.
Proof.
  rewrite preprocess_text_steps.
  apply strip_plain, sub_special_plain, sub_ws_runs_plain.
Qed.

(** X1: the result of [preprocess_text] is made of word characters,
    spaces and the listed punctuation only; its only white space is the
    space character, so it has no tab, newline or carriage return; it has
    no white space at either end; and it is never longer than the input. *)
Theorem preprocess_text_normal_form (s : str) :
  forallb kept (preprocess_text s) = true /\
  plain (preprocess_text s) = true /\
  strip (preprocess_text s) = preprocess_text s /\
  (length (preprocess_text s) <= length s)%nat.
Proof.
  split; [apply preprocess_text_kept|].
  split; [apply preprocess_text_plain|].
  rewrite preprocess_text_steps. split; [apply strip_idemp|].
  pose proof (length_strip (sub_special (sub_ws_runs false s))).
  pose proof (length_sub_special (sub_ws_runs false s)).
  pose proof (length_sub_ws_runs false s). lia.
Qed.

(** X2: from its second application on, [preprocess_text] changes
    nothing: applied to its own result twice it gives what it gives
    applied once to that result. *)
Theorem preprocess_text_stable_after_two (s : str) :
  preprocess_text (preprocess_text (preprocess_text s))
  = preprocess_text (preprocess_text s).
Proof. apply preprocess_text_idemp_kept, preprocess_text_kept. Qed.

End MoreTextFacts.

(** * Further properties of the chunker *)

Section MoreChunkFacts.
Context {U : Ucd}.

Lemma append_chunk_Forall (P : str -> Prop) chunks c :
  Forall P chunks -> (c <> [] -> P c) -> Forall P (append_chunk chunks c).
Proof.
  intros Hc Hp. destruct c as [|x c]; [done|].
  simpl. apply Forall_app. split; [done|]. constructor; [|done].
  by apply Hp.
Qed.

(** A property of the trimmed non-empty windows cut at the starts the
    loop can reach holds of every chunk returned. *)
Lemma chunk_loop_Forall (P : str -> Prop) (I : Z -> Prop) text cs ov :
  (forall start, I start -> I (window_end text cs start - ov)) ->
  (forall start, I start ->
     strip (py_slice text start (window_end text cs start)) <> [] ->
     P (strip (py_slice text start (window_end text cs start)))) ->
  forall fuel start chunks r,
    I start -> Forall P chunks ->
    chunk_loop fuel text cs ov start chunks = Some r -> Forall P r.
Proof.
  intros Hnext Hcut fuel.
  induction fuel as [|fuel IH]; intros start chunks r Hi Hc.
  - simpl. destruct (start <? _); [done|]. by intros [= <-].
  - rewrite chunk_loop_S. destruct (start <? _); [|by intros [= <-]].
    cbn zeta.
    assert (Forall P (append_chunk chunks
              (strip (py_slice text start (window_end text cs start)))))
      by (apply append_chunk_Forall; [done|by apply Hcut]).
    destruct (_ >=? _); [by intros [= <-]|].
    apply IH; [by apply Hnext|done].
Qed.

(** X3: whatever the parameters, when [chunk_text] returns, no chunk is
    empty and no chunk has white space at either end. *)
Theorem chunk_text_chunks_trimmed (fuel : nat) (text : str) (cs ov : Z)
    (chunks : list str) :
  chunk_text fuel text cs ov = Some chunks ->
  Forall (fun c => c <> [] /\ strip c = c) chunks.
Proof.
  destruct text as [|c text]; [by intros [= <-]|].
  rewrite chunk_text_cons.
  apply (chunk_loop_Forall _ (fun _ => True)); [done| |done|done].
  intros start _ Hne. split; [done|apply strip_idemp].
Qed.

(** X4: whatever the parameters, every chunk is made of characters of the
    normalised text: word characters, spaces and the listed punctuation,
    with no tab, newline or carriage return. *)
Theorem chunk_text_chunks_plain (fuel : nat) (text : str) (cs ov : Z)
    (chunks : list str) :
  chunk_text fuel text cs ov = Some chunks ->
  Forall (fun c => (forall x, x ∈ c -> x ∈ preprocess_text text) /\
                   forallb kept c = true /\ plain c = true) chunks.
Proof.
  destruct text as [|c text]; [by intros [= <-]|].
  rewrite chunk_text_cons.
  apply (chunk_loop_Forall _ (fun _ => True)); [done| |done|done].
  intros start _ _.
  assert (forall x, x ∈ strip (py_slice (preprocess_text (c :: text)) start
                         (window_end (preprocess_text (c :: text)) cs start)) ->
                    x ∈ preprocess_text (c :: text)) as Hsub
    by (intros x Hx; by apply elem_of_strip, elem_of_py_slice in Hx).
  split; [done|]. split.
  - apply (forallb_elem_of _ _ _ Hsub), preprocess_text_kept.
  - apply (forallb_elem_of _ _ _ Hsub), preprocess_text_plain.
Qed.

(** ** How long a chunk can be *)

Lemma starts_with_length sub s :
  starts_with sub s = true -> (length sub <= length s)%nat.
Proof.
  revert s. induction sub as [|a sub IH]; intros [|b s]; simpl; try done.
  - lia.
  - intros H. apply andb_prop in H as [_ H]. apply IH in H. lia.
Qed.

Lemma rfind_from_upper s sub : forall i,
  rfind_from s sub i <> -1 ->
  rfind_from s sub i + Z.of_nat (length sub) <= i + Z.of_nat (length s).
Proof.
  induction s as [|c s IH]; intros i; cbn [rfind_from].
  - destruct (starts_with sub []) eqn:E; [|done].
    apply starts_with_length in E. simpl in *. lia.
  - destruct (Z.eqb_spec (rfind_from s sub (i + 1)) (-1)) as [_|Hr].
    + destruct (starts_with sub (c :: s)) eqn:E; [|done].
      apply starts_with_length in E. simpl in *. lia.
    + intros _. specialize (IH (i + 1) Hr). simpl. lia.
Qed.

Lemma fold_break_step_upto st ss pats : forall bb,
  upto (ss + Z.of_nat (length st)) bb ->
  upto (ss + Z.of_nat (length st)) (fold_left (break_step st ss) pats bb).
Proof.
  induction pats as [|p pats IH]; intros bb Hbb; [done|].
  simpl. apply IH. unfold break_step.
  destruct (Z.eqb_spec (rfind st p) (-1)) as [|Hpos]; [done|].
  pose proof (rfind_from_upper st p 0 Hpos). fold (rfind st p) in *.
  destruct bb as [b|]; simpl in *; [|lia].
  destruct (_ >? b); simpl; lia.
Qed.

Lemma length_py_slice {A} (l : list A) a b :
  0 <= a -> 0 <= b -> Z.of_nat (length (py_slice l a b)) <= Z.max (b - a) 0.
Proof.
  intros Ha Hb. unfold py_slice, py_bound.
  destruct (Z.ltb_spec a 0); [lia|]. destruct (Z.ltb_spec b 0); [lia|].
  rewrite length_take, length_drop. lia.
Qed.

Lemma window_end_upper text cs start :
  0 <= start -> 1 <= cs -> window_end text cs start <= start + cs + 100.
Proof.
  intros Hs Hcs. unfold window_end.
  destruct (_ <? _); [|lia].
  set (ss := Z.max (start + cs - 100) start).
  set (se := Z.min (start + cs + 100) (Z.of_nat (length text))).
  pose proof (fold_break_step_upto (py_slice text ss se) ss patterns None I) as H.
  pose proof (length_py_slice text ss se).
  destruct (fold_left _ _ _) as [b|]; [|lia].
  simpl in H. destruct (_ && _); lia.
Qed.

(** X5: for [chunk_size >= 1] and
    [0 <= chunk_overlap <= max (chunk_size - 100) 0], a chunk has at most
    [chunk_size + 100] characters: the move to a sentence boundary can
    lengthen a window, by no more than the 100 characters searched. *)
Theorem chunk_text_chunk_length (fuel : nat) (text : str) (cs ov : Z)
    (chunks : list str) :
  1 <= cs -> 0 <= ov <= Z.max (cs - 100) 0 ->
  chunk_text fuel text cs ov = Some chunks ->
  Forall (fun c => Z.of_nat (length c) <= cs + 100) chunks.
Proof.
  intros Hcs Hov. destruct text as [|c text]; [by intros [= <-]|].
  rewrite chunk_text_cons.
  apply (chunk_loop_Forall _ (fun start => 0 <= start)); [| |done|done].
  - intros start Hs.
    pose proof (window_end_advances (preprocess_text (c :: text)) cs ov start
                  Hcs Hov). lia.
  - intros start Hs _.
    set (t := preprocess_text (c :: text)).
    pose proof (window_end_advances t cs ov start Hcs Hov).
    pose proof (window_end_upper t cs start Hs Hcs).
    pose proof (length_py_slice t start (window_end t cs start)).
    pose proof (length_strip (py_slice t start (window_end t cs start))).
    lia.
Qed.

(** X6: a text whose normalised form is not empty and has at most
    [chunk_size - chunk_overlap] characters gives exactly one chunk, the
    normalised text itself. *)
Theorem chunk_text_short_text (text : str) (cs ov : Z) :
  0 <= ov ->
  preprocess_text text <> [] ->
  Z.of_nat (length (preprocess_text text)) <= cs - ov ->
  forall fuel, chunk_text (S fuel) text cs ov = Some [preprocess_text text].
Proof.
  intros Hov Hne Hlen fuel. destruct text as [|c text]; [done|].
  rewrite chunk_text_cons. set (t := preprocess_text (c :: text)) in *.
  assert (0 < Z.of_nat (length t)) by (destruct t; [done|simpl; lia]).
  rewrite chunk_loop_S.
  destruct (Z.ltb_spec 0 (Z.of_nat (length t))); [|lia]. cbn zeta.
  assert (window_end t cs 0 = cs) as ->.
  { unfold window_end. destruct (Z.ltb_spec (0 + cs) (Z.of_nat (length t))); lia. }
  destruct (Z.geb_spec (cs - ov) (Z.of_nat (length t))); [|lia].
  rewrite py_slice_nonneg by lia. rewrite drop_0, take_ge by lia.
  assert (strip t = t) as ->
    by (unfold t; rewrite preprocess_text_steps; apply strip_idemp).
  by destruct t.
Qed.

End MoreChunkFacts.

Section MoreChunkFacts2.
Context {U : Ucd}.

(** X8: [create_chunks_with_metadata] returns when [chunk_text] does, with
    the same texts in the same order; the [i]-th chunk carries the source,
    the index [i] and the number of chunks. *)
Theorem create_chunks_with_metadata_chunks (fuel : nat) (t src : str)
    (cs ov : Z) (chunks : list str) :
  chunk_text fuel t cs ov = Some chunks ->
  exists cks,
    create_chunks_with_metadata fuel t src cs ov = Some cks /\
    text <$> cks = chunks /\
    forall i c, cks !! i = Some c ->
      source (meta c) = src /\
      chunk_index (meta c) = Z.of_nat i /\
      total_chunks (meta c) = Z.of_nat (length chunks).
Proof.
  intros Hc. unfold create_chunks_with_metadata. rewrite Hc.
  eexists. split; [done|]. split.
  - rewrite fmap_imap.
    rewrite (imap_ext _ (const id)) by done.
    rewrite imap_const. apply list_fmap_id.
  - intros i c Hi. apply list_lookup_imap_Some in Hi as (x & _ & ->). done.
Qed.

(** X7: for [chunk_size >= 1] and
    [0 <= chunk_overlap <= max (chunk_size - 100) 0] (the defaults 1000 and
    200, and the page split 2000 and 0, are such) [chunk_text] returns,
    within as many iterations of its loop as the input has characters. *)
Theorem chunk_text_terminates (fuel : nat) (t : str) (cs ov : Z) :
  1 <= cs -> 0 <= ov <= Z.max (cs - 100) 0 ->
  (length t <= fuel)%nat ->
  exists chunks, chunk_text fuel t cs ov = Some chunks.
Proof.
  intros Hcs Hov Hfuel. apply chunk_text_returns; [done..|].
  rewrite preprocess_text_steps.
  pose proof (length_strip (sub_special (sub_ws_runs false t))).
  pose proof (length_sub_special (sub_ws_runs false t)).
  pose proof (length_sub_ws_runs false t). lia.
Qed.

End MoreChunkFacts2.

(** * Further properties of the vector store *)

Section MoreStoreFacts.
Context {U : Ucd} `{C : Chroma} {O : Ollama}.

(** ** Collection names *)

Lemma py_slice_to_take {A} (l : list A) (k : Z) :
  0 <= k -> py_slice_to l k = take (Z.to_nat k) l.
Proof.
  intros Hk. unfold py_slice_to, py_bound.
  destruct (Z.ltb_spec k 0); [lia|].
  destruct (Z.le_gt_cases k (Z.of_nat (length l))).
  - by rewrite Z.min_l.
  - rewrite Z.min_r, !take_ge by lia. done.
Qed.

Lemma safe_name_take b :
  safe_name b = take 50 ((fun c => if isalnum c then c else 95%N) <$> b).
Proof. unfold safe_name. by rewrite py_slice_to_take. Qed.

(** X9: a collection name has the length of the book name, up to 50, and
    is made of alphanumeric characters and underscores only. *)
Theorem safe_name_shape (b : str) :
  length (safe_name b) = Nat.min (length b) 50 /\
  Forall (fun c => isalnum c = true \/ c = 95%N) (safe_name b).
Proof.
  rewrite safe_name_take. split.
  - rewrite length_take, length_fmap. lia.
  - apply Forall_take, Forall_fmap, Forall_forall. intros c _. simpl.
    destruct (isalnum c) eqn:E; eauto.
Qed.

(** X10: the name of a collection is its own collection name: the names
    [list_books] returns address the collections they come from. *)
Theorem safe_name_idempotent (b : str) :
  safe_name (safe_name b) = safe_name b.
Proof.
  rewrite !safe_name_take, fmap_take, take_take, Nat.min_id.
  f_equal. rewrite <- list_fmap_compose. apply list_fmap_ext.
  intros _ c _. simpl. destruct (isalnum c) eqn:E; [by rewrite E|done].
Qed.

(** ** Running the steps of the store *)

Lemma bind_ok {A B} (c : M A) (k : A -> M B) w a w' :
  c w = (Ok a, w') -> bind c k w = k a w'.
Proof. unfold bind. by intros ->. Qed.

Lemma bind_raise {A B} (c : M A) (k : A -> M B) w e w' :
  c w = (Raise e, w') -> bind c k w = (Raise e, w').
Proof. unfold bind. by intros ->. Qed.

Lemma collection_count_run name w es :
  collections w !! name = Some es ->
  collection_count name w = (Ok (Z.of_nat (length es)), w).
Proof. intros Hl. unfold collection_count, bind, gets. by rewrite Hl. Qed.

Lemma collection_add_run name ids embs docs metas w es :
  collections w !! name = Some es ->
  collection_add name ids embs docs metas w
  = (Ok tt,
     with_collections
       (<[name := es ++ zip_with
            (fun ie dm => {| entry_id := ie.1; entry_embedding := ie.2;
                             entry_document := dm.1; entry_metadata := dm.2 |})
            (zip ids embs) (zip docs metas)]>) w).
Proof. intros Hl. unfold collection_add, bind, gets. by rewrite Hl. Qed.

Lemma py_slice_take_drop {A} (l : list A) a b :
  0 <= a -> 0 <= b ->
  py_slice l a b = take (Z.to_nat b - Z.to_nat a) (drop (Z.to_nat a) l).
Proof.
  intros Ha Hb. destruct (Z.le_gt_cases a b); [by apply py_slice_nonneg|].
  unfold py_slice, py_bound.
  destruct (Z.ltb_spec a 0); [lia|]. destruct (Z.ltb_spec b 0); [lia|].
  replace (Z.to_nat b - Z.to_nat a)%nat with 0%nat by lia.
  replace (Z.to_nat (_ - _)) with 0%nat by lia. done.
Qed.

(** The entries of one batch are a batch of the entries. *)
Lemma zip_entries_slice {X} (f : str * vec -> str * metadata -> X)
    (ids : list str) (embs : list vec) (docs : list str) (metas : list metadata)
    (i e : Z) :
  0 <= i -> 0 <= e ->
  zip_with f (zip (py_slice ids i e) (py_slice embs i e))
    (zip (py_slice docs i e) (py_slice metas i e))
  = take (Z.to_nat e - Z.to_nat i)
      (drop (Z.to_nat i) (zip_with f (zip ids embs) (zip docs metas))).
Proof.
  intros Hi He. rewrite !py_slice_take_drop by done.
  by rewrite !zip_with_drop, !zip_with_take.
Qed.

Lemma take_same_min {A} (l : list A) a b :
  Nat.min a (length l) = Nat.min b (length l) -> take a l = take b l.
Proof.
  intros Hm. destruct (Nat.le_gt_cases (length l) a).
  - rewrite !take_ge by lia. done.
  - f_equal. lia.
Qed.

(** The batch loop of [add_documents] appends all entries, in order. *)
Lemma add_batches name (ids : list str) (embs : list vec) (docs : list str)
    (metas : list metadata) (n : nat) :
  let E := zip_with
             (fun ie dm => {| entry_id := ie.1; entry_embedding := ie.2;
                              entry_document := dm.1; entry_metadata := dm.2 |})
             (zip ids embs) (zip docs metas) in
  length E = n ->
  forall m k w es,
    collections w !! name = Some es ->
    exists w',
      for_each ((fun k => Z.of_nat (k * 100)) <$> seq k m)
        (fun i =>
           let end_ := Z.min (i + Z.of_nat 100) (Z.of_nat n) in
           collection_add name (py_slice ids i end_) (py_slice embs i end_)
             (py_slice docs i end_) (py_slice metas i end_)) w
      = (Ok tt, w') /\
      collections w' = <[name := es ++ take (m * 100) (drop (k * 100) E)]>
                         (collections w).
Proof.
  intros E HE m. induction m as [|m IH]; intros k w es Hes.
  - exists w. split; [done|]. simpl. rewrite app_nil_r. by rewrite insert_id.
  - cbn [seq fmap list_fmap for_each].
    erewrite bind_ok; [|by apply collection_add_run].
    rewrite zip_entries_slice by lia. fold E. rewrite Nat2Z.id.
    rewrite (take_same_min (drop (k * 100) E) _ 100)
      by (rewrite length_drop; lia).
    set (w1 := with_collections _ w).
    destruct (IH (S k) w1 (es ++ take 100 (drop (k * 100) E)))
      as (w' & Hrun & Hc).
    { unfold w1. simpl. by rewrite lookup_insert_eq. }
    exists w'. split; [exact Hrun|].
    assert (take 100 (drop (k * 100) E) ++ take (m * 100) (drop (S k * 100) E)
            = take (S m * 100) (drop (k * 100) E)) as Hjoin.
    { replace (drop (S k * 100) E) with (drop 100 (drop (k * 100) E))
        by (rewrite drop_drop; f_equal; lia).
      rewrite take_take_drop. f_equal. }
    rewrite Hc. unfold w1. cbn [collections with_collections].
    by rewrite insert_insert_eq, <- app_assoc, Hjoin.
Qed.

Lemma zip_entries_indexed (b : str) (chunks : list chunk) : forall (embs : list vec) j,
  zip_with (fun ie dm => {| entry_id := ie.1; entry_embedding := ie.2;
                            entry_document := dm.1; entry_metadata := dm.2 |})
    (zip ((fun i => b ++ lit "_" ++ decimal i) <$> seq j (length chunks)) embs)
    (zip (text <$> chunks) (meta <$> chunks))
  = imap (fun i ce => {| entry_id := b ++ lit "_" ++ decimal (j + i);
                         entry_embedding := ce.2;
                         entry_document := text ce.1;
                         entry_metadata := meta ce.1 |})
      (zip chunks embs).
Proof.
  induction chunks as [|c chunks IH]; intros embs j; [done|].
  destruct embs as [|e embs]; [done|].
  cbn [length seq fmap list_fmap zip_with]. rewrite imap_cons.
  rewrite Nat.add_0_r. cbn [fst snd]. apply (f_equal (cons _)).
  rewrite (IH embs (S j)). apply imap_ext. intros i x _. unfold compose.
  by replace (j + S i)%nat with (S j + i)%nat by lia.
Qed.

Lemma length_indexed b (chunks : list chunk) (embs : list vec) :
  length embs = length chunks -> length (indexed b chunks embs) = length chunks.
Proof.
  intros Hl. unfold indexed. rewrite length_imap, length_zip_with. lia.
Qed.

(** ** Getting the collection of a book *)

Lemma get_or_create_collection_ok b w :
  is_Some (collections w !! safe_name b) \/ valid_name (safe_name b) = true ->
  exists w1,
    get_or_create_collection b w = (Ok (safe_name b), w1) /\
    collections w1 = ensured (safe_name b) (collections w) /\
    calls w1 = calls w /\ current_book w1 = current_book w.
Proof.
  intros Hok.
  unfold get_or_create_collection, client_get_or_create_collection,
    bind, modify, gets, ret, raise, ensured.
  cbn [collections with_vs_current_book].
  destruct (collections w !! safe_name b) eqn:E.
  - eexists. split; [reflexivity|]. done.
  - destruct Hok as [[? ?]|Hv]; [done|]. rewrite Hv.
    eexists. split; [reflexivity|]. done.
Qed.

Lemma get_or_create_collection_refused b w :
  collections w !! safe_name b = None -> valid_name (safe_name b) = false ->
  exists w1,
    get_or_create_collection b w = (Raise ChromaError, w1) /\
    collections w1 = collections w /\
    calls w1 = calls w /\ current_book w1 = current_book w.
Proof.
  intros Hnone Hv.
  unfold get_or_create_collection, client_get_or_create_collection,
    bind, modify, gets, ret, raise.
  cbn [collections with_vs_current_book]. rewrite Hnone, Hv.
  eexists. split; [reflexivity|]. done.
Qed.

Lemma indexable_ok w b :
  indexable w b ->
  (is_Some (collections w !! safe_name b) \/ valid_name (safe_name b) = true) /\
  default [] (collections w !! safe_name b) = [] /\
  ensured (safe_name b) (collections w)
  = <[safe_name b := []]> (collections w).
Proof.
  unfold indexable, ensured.
  destruct (collections w !! safe_name b) as [es|] eqn:E.
  - intros ->. split; [left; by eexists|]. split; [done|].
    by rewrite insert_id.
  - intros Hv. split; [by right|]. done.
Qed.

(** ** Runs of [similarity_search] *)

(** The search on a book that can be indexed: it has no entry. *)
Lemma similarity_search_empty_run q b n w :
  indexable w b ->
  exists w',
    similarity_search q b n w = (Ok [], w') /\
    collections w' = <[safe_name b := []]> (collections w) /\
    calls w' = calls w ++ [SimilaritySearch q b n] /\
    current_book w' = current_book w.
Proof.
  intros Hi. unfold similarity_search, bind at 1, modify.
  set (w0 := with_call _ w).
  destruct (indexable_ok w0 b Hi) as (Hok & Hempty & Hens).
  destruct (get_or_create_collection_ok b w0 Hok)
    as (w1 & Hgoc & Hw1 & Hcalls & Hbook).
  erewrite bind_ok; [|exact Hgoc].
  erewrite bind_ok;
    [|apply collection_count_run; rewrite Hw1; apply lookup_ensured].
  rewrite Hempty. exists w1. split; [reflexivity|].
  split; [by rewrite Hw1, Hens|]. done.
Qed.

(** The search on a book without a collection whose name is refused. *)
Lemma similarity_search_refused_run q b n w :
  collections w !! safe_name b = None -> valid_name (safe_name b) = false ->
  exists w',
    similarity_search q b n w = (Raise ChromaError, w') /\
    collections w' = collections w /\
    calls w' = calls w ++ [SimilaritySearch q b n] /\
    current_book w' = current_book w.
Proof.
  intros Hnone Hv. unfold similarity_search, bind at 1, modify.
  set (w0 := with_call _ w).
  destruct (get_or_create_collection_refused b w0 Hnone Hv)
    as (w1 & Hgoc & Hw1 & Hcalls & Hbook).
  erewrite bind_raise; [|exact Hgoc]. exists w1. done.
Qed.

(** The search on a book that has entries. *)
Lemma similarity_search_run q b n w e es :
  collections w !! safe_name b = Some (e :: es) ->
  exists w',
    similarity_search q b n w
    = (match encode q with
       | None => Raise EncodeError
       | Some qe =>
           match nearest (e :: es) qe (Z.min n (Z.of_nat (length (e :: es)))) with
           | None => Raise ChromaError
           | Some results =>
               Ok ((fun r => {| hit_text := entry_document r.1;
                                hit_metadata := entry_metadata r.1;
                                hit_distance := r.2 |}) <$> results)
           end
       end, w') /\
    collections w' = collections w /\
    calls w' = calls w ++ [SimilaritySearch q b n] /\
    current_book w' = current_book w.
Proof.
  intros Hes. unfold similarity_search, bind at 1, modify.
  set (w0 := with_call _ w).
  destruct (get_or_create_collection_ok b w0) as (w1 & Hgoc & Hw1 & Hcalls & Hbook).
  { left. by eexists. }
  assert (collections w1 = collections w) as Hsame
    by (rewrite Hw1; unfold ensured, w0; simpl; by rewrite Hes).
  assert (collections w1 !! safe_name b = Some (e :: es)) as Hl
    by (by rewrite Hsame).
  erewrite bind_ok; [|exact Hgoc].
  erewrite bind_ok; [|by apply collection_count_run].
  destruct (Z.eqb_spec (Z.of_nat (length (e :: es))) 0) as [E|_];
    [simpl in E; lia|].
  exists w1. split; [|done].
  unfold embed_text. destruct (encode q) as [qe|]; [|done].
  cbn [lift_option]. erewrite bind_ok; [|reflexivity].
  erewrite bind_ok; [|by apply collection_count_run].
  unfold collection_query, bind, gets. rewrite Hl.
  by destruct (nearest _ _ _).
Qed.

(** ** Runs of [add_documents] *)

(** Indexing a book that can be indexed, with the embedding model
    answering. *)
Lemma add_documents_run (chunks : list chunk) (b : str) (w : world)
    (embs : list vec) :
  indexable w b ->
  mapM encode (text <$> chunks) = Some embs ->
  exists w',
    add_documents chunks b w = (Ok (Z.of_nat (length chunks)), w') /\
    collections w' = <[safe_name b := indexed b chunks embs]> (collections w).
Proof.
  intros Hi Hemb. pose proof (length_mapM _ _ _ Hemb) as Hlen.
  rewrite length_fmap in Hlen.
  destruct (indexable_ok w b Hi) as (Hok & Hempty & Hens).
  destruct (get_or_create_collection_ok b w Hok)
    as (w1 & Hgoc & Hw1 & _ & _).
  unfold add_documents.
  erewrite bind_ok; [|exact Hgoc].
  erewrite bind_ok;
    [|apply collection_count_run; rewrite Hw1; apply lookup_ensured].
  rewrite Hempty. cbn [length Z.of_nat Z.gtb Z.compare].
  erewrite bind_ok; [|reflexivity].
  unfold embed_texts. rewrite Hemb. cbn [lift_option].
  erewrite bind_ok; [|reflexivity].
  destruct (add_batches (safe_name b)
              ((fun i => b ++ lit "_" ++ decimal i) <$> seq 0 (length chunks))
              embs (text <$> chunks) (meta <$> chunks) (length chunks))
    with (m := ((length chunks + 100 - 1) / 100)%nat) (k := 0%nat) (w := w1)
         (es := @nil entry)
    as (w3 & Hrun & Hw3).
  { rewrite zip_entries_indexed, length_imap, length_zip_with. lia. }
  { rewrite Hw1, Hens. apply lookup_insert_eq. }
  unfold range_step. erewrite bind_ok; [|exact Hrun].
  eexists. split; [reflexivity|].
  assert (length chunks <= (length chunks + 100 - 1) / 100 * 100)%nat as Hm.
  { pose proof (Nat.div_mod_eq (length chunks + 100 - 1) 100).
    assert ((length chunks + 100 - 1) mod 100 < 100)%nat
      by (apply Nat.mod_upper_bound; lia).
    lia. }
  rewrite Hw3, Hw1, Hens, insert_insert_eq. f_equal.
  rewrite zip_entries_indexed, app_nil_l.
  change (0 * 100)%nat with 0%nat. rewrite drop_0.
  fold (indexed b chunks embs). apply take_ge.
  by rewrite length_indexed.
Qed.

(** Indexing a book that can be indexed, with the embedding model
    failing. *)
Lemma add_documents_fail_run (chunks : list chunk) (b : str) (w : world) :
  indexable w b ->
  mapM encode (text <$> chunks) = None ->
  exists w',
    add_documents chunks b w = (Raise EncodeError, w') /\
    collections w' = <[safe_name b := []]> (collections w) /\
    current_book w' = current_book w.
Proof.
  intros Hi Hfail.
  destruct (indexable_ok w b Hi) as (Hok & Hempty & Hens).
  destruct (get_or_create_collection_ok b w Hok)
    as (w1 & Hgoc & Hw1 & _ & Hbook).
  unfold add_documents.
  erewrite bind_ok; [|exact Hgoc].
  erewrite bind_ok;
    [|apply collection_count_run; rewrite Hw1; apply lookup_ensured].
  rewrite Hempty. cbn [length Z.of_nat Z.gtb Z.compare].
  erewrite bind_ok; [|reflexivity].
  unfold embed_texts. rewrite Hfail. cbn [lift_option].
  erewrite bind_raise; [|reflexivity].
  exists w1. split; [done|]. split; [by rewrite Hw1, Hens|done].
Qed.

(** Indexing a book that has entries: the call that was to clear them
    raises. *)
Lemma add_documents_reindex_run (chunks : list chunk) (b : str) (w : world)
    (e : entry) (es : list entry) :
  collections w !! safe_name b = Some (e :: es) ->
  exists w',
    add_documents chunks b w = (Raise ChromaError, w') /\
    collections w' = collections w /\
    current_book w' = current_book w.
Proof.
  intros Hes.
  destruct (get_or_create_collection_ok b w) as (w1 & Hgoc & Hw1 & _ & Hbook).
  { left. by eexists. }
  assert (collections w1 = collections w) as Hsame
    by (rewrite Hw1; unfold ensured; by rewrite Hes).
  unfold add_documents.
  erewrite bind_ok; [|exact Hgoc].
  erewrite bind_ok; [|apply collection_count_run; by rewrite Hsame].
  destruct (Z.gtb_spec (Z.of_nat (length (e :: es))) 0) as [_|E];
    [|simpl in E; lia].
  erewrite bind_raise; [|reflexivity]. exists w1. done.
Qed.

(** Indexing a book without a collection whose name is refused. *)
Lemma add_documents_refused_run (chunks : list chunk) (b : str) (w : world) :
  collections w !! safe_name b = None -> valid_name (safe_name b) = false ->
  exists w',
    add_documents chunks b w = (Raise ChromaError, w') /\
    collections w' = collections w /\
    current_book w' = current_book w.
Proof.
  intros Hnone Hv.
  destruct (get_or_create_collection_refused b w Hnone Hv)
    as (w1 & Hgoc & Hw1 & _ & Hbook).
  unfold add_documents. erewrite bind_raise; [|exact Hgoc]. exists w1. done.
Qed.

(** C1: when [add_documents] raises for a book that has a collection,
    whatever raised (the embedding model, or the client), the entries of
    that collection, and of every other one, are those of before: a
    failed indexing never leaves the book with fewer or other entries. *)
Theorem add_documents_failure_keeps_index (chunks : list chunk) (b : str)
    (w w' : world) (x : exn) (es : list entry) :
  collections w !! safe_name b = Some es ->
  add_documents chunks b w = (Raise x, w') ->
  collections w' !! safe_name b = Some es /\ collections w' = collections w.
Proof.
  intros Hes Hrun.
  assert (collections w' = collections w) as Hsame.
  { destruct es as [|e es].
    - assert (indexable w b) as Hi by (unfold indexable; by rewrite Hes).
      destruct (mapM encode (text <$> chunks)) as [embs|] eqn:Hemb.
      + destruct (add_documents_run chunks b w embs Hi Hemb) as (w2 & Hr & _).
        congruence.
      + destruct (add_documents_fail_run chunks b w Hi Hemb)
          as (w2 & Hr & Hc & _).
        rewrite Hr in Hrun. injection Hrun as _ <-.
        rewrite Hc. by apply insert_id.
    - destruct (add_documents_reindex_run chunks b w e es Hes)
        as (w2 & Hr & Hc & _).
      rewrite Hr in Hrun. by injection Hrun as _ <-. }
  split; [by rewrite Hsame|done].
Qed.

(** X11: for a book that can be indexed (its collection is empty, or it
    has none and the client accepts its name), when the embedding model
    answers, [add_documents] returns the number of chunks, and the book's
    collection then holds exactly the entries built from these chunks, one
    per chunk and in their order; the other collections are unchanged. *)
Theorem add_documents_indexes (chunks : list chunk) (b : str) (w : world)
    (embs : list vec) :
  indexable w b ->
  mapM encode (text <$> chunks) = Some embs ->
  exists w',
    add_documents chunks b w = (Ok (Z.of_nat (length chunks)), w') /\
    collections w' = <[safe_name b := indexed b chunks embs]> (collections w) /\
    length (indexed b chunks embs) = length chunks /\
    entry_document <$> indexed b chunks embs = text <$> chunks.
Proof.
  intros Hi Hemb.
  destruct (add_documents_run chunks b w embs Hi Hemb) as (w' & Hr & Hc).
  pose proof (length_mapM _ _ _ Hemb) as Hlen. rewrite length_fmap in Hlen.
  exists w'. split; [done|]. split; [done|].
  split; [by apply length_indexed|].
  unfold indexed. rewrite fmap_imap.
  rewrite (imap_ext _ (const (text ∘ fst))) by done.
  rewrite imap_const, list_fmap_compose. f_equal.
  by apply fst_zip; lia.
Qed.

(** X12: once a book is indexed with at least one chunk, indexing it
    again raises, whatever the chunks and the state of the embedding
    model, because the call that was to clear the collection is refused;
    every collection is left as the first indexing left it. *)
Theorem add_documents_twice (chunks again : list chunk) (b : str) (w : world)
    (embs : list vec) :
  chunks <> [] ->
  indexable w b ->
  mapM encode (text <$> chunks) = Some embs ->
  exists w1 w2,
    add_documents chunks b w = (Ok (Z.of_nat (length chunks)), w1) /\
    add_documents again b w1 = (Raise ChromaError, w2) /\
    collections w2 = collections w1.
Proof.
  intros Hne Hi Hemb.
  destruct (add_documents_run chunks b w embs Hi Hemb) as (w1 & Hr1 & Hc1).
  pose proof (length_mapM _ _ _ Hemb) as Hlen. rewrite length_fmap in Hlen.
  assert (length (indexed b chunks embs) = length chunks) as Hli
    by (by apply length_indexed).
  destruct (indexed b chunks embs) as [|e es] eqn:Ei.
  { destruct chunks; [done|simpl in Hli; lia]. }
  destruct (add_documents_reindex_run again b w1 e es)
    as (w2 & Hr2 & Hc2 & _); [by rewrite Hc1, lookup_insert_eq|].
  by exists w1, w2.
Qed.

Lemma delete_book_run b w :
  delete_book b w
  = match collections w !! safe_name b with
    | Some _ => (Ok true, with_collections (delete (safe_name b)) w)
    | None => (Ok false, w)
    end.
Proof.
  unfold delete_book, try_except, bind, client_delete_collection, bind, gets.
  by destruct (collections w !! safe_name b).
Qed.

(** X13: after a book that could be indexed is indexed, [delete_book]
    returns [True] and leaves the collections as they were before the
    indexing, without the book's own; a second [delete_book] returns
    [False] and changes nothing. *)
Theorem add_documents_delete_book (chunks : list chunk) (b : str) (w : world)
    (embs : list vec) :
  indexable w b ->
  mapM encode (text <$> chunks) = Some embs ->
  exists w1 w2,
    add_documents chunks b w = (Ok (Z.of_nat (length chunks)), w1) /\
    delete_book b w1 = (Ok true, w2) /\
    collections w2 = delete (safe_name b) (collections w) /\
    delete_book b w2 = (Ok false, w2).
Proof.
  intros Hi Hemb.
  destruct (add_documents_run chunks b w embs Hi Hemb) as (w1 & Hr1 & Hc1).
  exists w1, (with_collections (delete (safe_name b)) w1).
  split; [done|]. rewrite !delete_book_run.
  cbn [collections with_collections].
  rewrite Hc1, lookup_insert_eq, lookup_delete_eq, delete_insert_eq. done.
Qed.

(** X14: after [delete_book] the book's collection name is not among the
    names [list_books] returns, whether or not it was before; every other
    collection is listed as before and keeps its entries. *)
Theorem delete_book_list_books (b : str) (w : world) :
  exists r w' books,
    delete_book b w = (Ok r, w') /\
    list_books w' = (Ok books, w') /\
    (safe_name b ∉ books) /\
    forall k, k <> safe_name b ->
      (k ∈ books <-> k ∈ (map_to_list (collections w)).*1) /\
      collections w' !! k = collections w !! k.
Proof.
  rewrite delete_book_run.
  destruct (collections w !! safe_name b) as [es|] eqn:E.
  - eexists _, _, _. split; [done|]. split; [apply list_books_run|].
    cbn [collections with_collections]. rewrite elem_of_books.
    split; [rewrite lookup_delete_eq; by intros [? ?]|].
    intros k Hk. rewrite !elem_of_books, lookup_delete_ne by done. done.
  - eexists _, _, _. split; [done|]. split; [apply list_books_run|].
    rewrite elem_of_books, E. split; [by intros [? ?]|]. done.
Qed.

(** X15: whatever its outcome, a value or an exception, [similarity_search]
    leaves the entries of every existing collection as they were; the only
    change it can make to the store is to create the empty collection of a
    book that had none, which it does when the client accepts the name. *)
Theorem similarity_search_keeps_entries (q b : str) (n : Z) (w : world) :
  (forall k es, collections w !! k = Some es ->
     collections (similarity_search q b n w).2 !! k = Some es) /\
  collections (similarity_search q b n w).2
  = match collections w !! safe_name b with
    | Some _ => collections w
    | None =>
        if valid_name (safe_name b)
        then <[safe_name b := []]> (collections w) else collections w
    end.
Proof.
  assert (collections (similarity_search q b n w).2
          = match collections w !! safe_name b with
            | Some _ => collections w
            | None =>
                if valid_name (safe_name b)
                then <[safe_name b := []]> (collections w) else collections w
            end) as Heq.
  { destruct (collections w !! safe_name b) as [[|e es]|] eqn:E.
    - destruct (similarity_search_empty_run q b n w) as (w' & -> & Hc & _);
        [unfold indexable; by rewrite E|].
      cbn [snd]. rewrite Hc. by apply insert_id.
    - by destruct (similarity_search_run q b n w e es E) as (w' & -> & Hc & _).
    - destruct (valid_name (safe_name b)) eqn:Hv.
      + by destruct (similarity_search_empty_run q b n w) as (w' & -> & Hc & _);
          [unfold indexable; by rewrite E|].
      + by destruct (similarity_search_refused_run q b n w E Hv)
          as (w' & -> & Hc & _). }
  split; [|done]. intros k es Hk. rewrite Heq.
  destruct (collections w !! safe_name b) eqn:E; [done|].
  destruct (valid_name (safe_name b)); [|done].
  rewrite lookup_insert_ne; [done|]. intros <-. congruence.
Qed.

(** X16: a search in a book that could be indexed and was just indexed
    with at least one chunk asks the nearest-neighbour search for
    [min n count] results among exactly the entries of that indexing, and
    returns the text, metadata and distance of each hit in the order
    received. *)
Theorem add_documents_similarity_search (chunks : list chunk) (b q : str)
    (n : Z) (w : world) (embs : list vec) (qe : vec)
    (results : list (entry * distance)) :
  chunks <> [] ->
  indexable w b ->
  mapM encode (text <$> chunks) = Some embs ->
  encode q = Some qe ->
  nearest (indexed b chunks embs) qe (Z.min n (Z.of_nat (length chunks)))
  = Some results ->
  exists w1 w2,
    add_documents chunks b w = (Ok (Z.of_nat (length chunks)), w1) /\
    similarity_search q b n w1
    = (Ok ((fun r => {| hit_text := entry_document r.1;
                        hit_metadata := entry_metadata r.1;
                        hit_distance := r.2 |}) <$> results), w2) /\
    collections w2 = collections w1.
Proof.
  intros Hne Hi Hemb Hq Hnear.
  destruct (add_documents_run chunks b w embs Hi Hemb) as (w1 & Hr1 & Hc1).
  pose proof (length_mapM _ _ _ Hemb) as Hlen. rewrite length_fmap in Hlen.
  assert (length (indexed b chunks embs) = length chunks) as Hli
    by (by apply length_indexed).
  destruct (indexed b chunks embs) as [|e es] eqn:Ei.
  { destruct chunks; [done|simpl in Hli; lia]. }
  assert (collections w1 !! safe_name b = Some (e :: es)) as Hw1
    by (by rewrite Hc1, lookup_insert_eq).
  destruct (similarity_search_run q b n w1 e es Hw1) as (w2 & Hs & Hc2 & _).
  rewrite Hq, Hli, Hnear in Hs. by exists w1, w2.
Qed.

(** X29: for a book that can be indexed (its collection is empty, or it
    has none and the client accepts its name), [similarity_search]
    returns the empty list, whatever the query and the state of the
    embedding model; afterwards the book has an empty collection, and
    [list_books] returns its name. *)
Theorem similarity_search_not_indexed (q b : str) (n : Z) (w : world) :
  indexable w b ->
  exists w' books,
    similarity_search q b n w = (Ok [], w') /\
    collections w' !! safe_name b = Some [] /\
    list_books w' = (Ok books, w') /\
    safe_name b ∈ books.
Proof.
  intros Hi.
  destruct (similarity_search_empty_run q b n w Hi) as (w' & Hs & Hc & _).
  exists w', (map_to_list (collections w')).*1.
  split; [done|]. split; [by rewrite Hc, lookup_insert_eq|].
  split; [apply list_books_run|].
  apply elem_of_books. rewrite Hc, lookup_insert_eq. by eexists.
Qed.

End MoreStoreFacts.

(** * Further properties of the orchestrator *)

Section MoreEngineFacts.
Context {U : Ucd} `{C : Chroma} {O : Ollama}.

Lemma no_book_Some (b : str) : b <> [] -> no_book (Some b) = false.
Proof. by destruct b. Qed.

Lemma build_context_empty_run q n w b :
  current_book w = Some b -> b <> [] ->
  indexable w b ->
  exists w',
    _build_context q n w = (Ok no_passages, w') /\
    calls w' = calls w ++ [SimilaritySearch q b n] /\
    current_book w' = Some b.
Proof.
  intros Hb Hne Hi. unfold _build_context.
  erewrite bind_ok; [|reflexivity]. rewrite Hb, (no_book_Some b Hne).
  destruct (similarity_search_empty_run q b n w Hi)
    as (w' & Hs & _ & Hcalls & Hbook).
  erewrite bind_ok; [|exact Hs].
  exists w'. split; [reflexivity|]. split; [done|congruence].
Qed.

Lemma build_context_encode_failure_run q n w b e es :
  current_book w = Some b -> b <> [] ->
  collections w !! safe_name b = Some (e :: es) ->
  encode q = None ->
  exists w',
    _build_context q n w = (Raise EncodeError, w') /\
    calls w' = calls w ++ [SimilaritySearch q b n].
Proof.
  intros Hb Hne Hes Hq. unfold _build_context.
  erewrite bind_ok; [|reflexivity]. rewrite Hb, (no_book_Some b Hne).
  destruct (similarity_search_run q b n w e es Hes) as (w' & Hs & _ & Hcalls & _).
  rewrite Hq in Hs. erewrite bind_raise; [|exact Hs].
  exists w'. split; [reflexivity|]. done.
Qed.

(** X17: with a current book whose collection is empty, or which has none
    and whose collection name the client accepts, [query] still calls the
    backend, once, with the placeholder for the passages in the system
    message; it returns the content of the reply (the empty string when
    the reply has none) or raises [ConnectionError] when the request
    fails. *)
Theorem query_empty_index (q model b : str) (h : option (list message))
    (n : Z) (w : world) :
  current_book w = Some b -> b <> [] ->
  indexable w b ->
  exists w',
    query q model h n w
    = (match post_chat model (_build_messages q (default [] h) no_passages) with
       | HttpOk c => Ok (default [] c)
       | HttpFailed e =>
           Raise (ConnectionError (lit "Failed to communicate with Ollama: " ++ e))
       end, w') /\
    calls w'
    = calls w ++ [SimilaritySearch q b n;
                  Chat model (_build_messages q (default [] h) no_passages)].
Proof.
  intros Hb Hne Hi.
  destruct (build_context_empty_run q n w b Hb Hne Hi)
    as (w1 & Hctx & Hcalls & _).
  unfold query. erewrite bind_ok; [|reflexivity].
  rewrite Hb, (no_book_Some b Hne).
  erewrite bind_ok; [|exact Hctx].
  unfold chat, bind, modify.
  destruct (post_chat _ _); eexists; (split; [reflexivity|]);
    cbn [calls with_call]; by rewrite Hcalls, <- app_assoc.
Qed.

(** X18: when the book has entries and the embedding model fails on the
    question, [query] raises that failure and [query_stream] yields
    nothing and raises it; the backend is not called. *)
Theorem query_retrieval_failure (q model b : str) (h : option (list message))
    (n : Z) (w : world) (e : entry) (es : list entry) :
  current_book w = Some b -> b <> [] ->
  collections w !! safe_name b = Some (e :: es) ->
  encode q = None ->
  exists w',
    query q model h n w = (Raise EncodeError, w') /\
    query_stream q model h n w = (([], Some EncodeError), w') /\
    calls w' = calls w ++ [SimilaritySearch q b n].
Proof.
  intros Hb Hne Hes Hq.
  destruct (build_context_encode_failure_run q n w b e es Hb Hne Hes Hq)
    as (w1 & Hctx & Hcalls).
  exists w1. split; [|split; [|done]].
  - unfold query. erewrite bind_ok; [|reflexivity].
    rewrite Hb, (no_book_Some b Hne). by erewrite bind_raise.
  - unfold query_stream. by rewrite Hb, (no_book_Some b Hne), Hctx.
Qed.

Lemma filter_nonempty_Forall (l : list str) :
  Forall (fun f => f <> []) (List.filter nonempty l).
Proof.
  induction l as [|x l IH]; [done|]. simpl.
  destruct x; simpl; [done|]. by constructor.
Qed.

Lemma concat_filter_nonempty (l : list str) :
  concat (List.filter nonempty l) = concat l.
Proof.
  induction l as [|x l IH]; [done|]. simpl.
  destruct x; simpl; by rewrite IH.
Qed.

(** X19: in every state and for every reply of the backend, no fragment
    [query_stream] yields is empty. *)
Theorem query_stream_fragments_nonempty (q model : str)
    (h : option (list message)) (n : Z) (w : world) :
  Forall (fun f => f <> []) (query_stream q model h n w).1.1.
Proof.
  unfold query_stream. destruct (no_book (current_book w)).
  - by repeat constructor.
  - destruct (_build_context q n w) as [[ctx|e] w']; [|done].
    apply filter_nonempty_Forall.
Qed.

(** X20: when the transfer ends normally, [query_stream] yields the
    non-empty message contents of the lines in the order received and
    ends without an exception; put together, the fragments are the
    contents of all lines put together. *)
Theorem query_stream_complete (q model : str) (h : option (list message))
    (n : Z) (w w' : world) (context : str) :
  no_book (current_book w) = false ->
  _build_context q n w = (Ok context, w') ->
  broken (post_chat_stream model
            (_build_messages q (default [] h) context)) = None ->
  query_stream q model h n w
  = ((List.filter nonempty
        (default [] <$>
           lines (post_chat_stream model
                    (_build_messages q (default [] h) context))), None),
     with_call (ChatStream model (_build_messages q (default [] h) context)) w')
  /\
  concat (query_stream q model h n w).1.1
  = concat (default [] <$>
              lines (post_chat_stream model
                       (_build_messages q (default [] h) context))).
Proof.
  intros Hbook Hctx Hbroken.
  assert (query_stream q model h n w
          = ((List.filter nonempty
                (default [] <$>
                   lines (post_chat_stream model
                            (_build_messages q (default [] h) context))), None),
             with_call
               (ChatStream model (_build_messages q (default [] h) context)) w'))
    as ->.
  { unfold query_stream. rewrite Hbook, Hctx. unfold chat_stream.
    by rewrite Hbroken. }
  split; [done|]. apply concat_filter_nonempty.
Qed.

(** X21: once the context is retrieved, [query] and [query_stream] send
    the same messages to the backend, the one to the chat request and the
    other to the streaming one, and make no other call. *)
Theorem query_and_stream_same_messages (q model : str)
    (h : option (list message)) (n : Z) (w w' : world) (context : str) :
  no_book (current_book w) = false ->
  _build_context q n w = (Ok context, w') ->
  calls (query q model h n w).2
  = calls w' ++ [Chat model (_build_messages q (default [] h) context)] /\
  calls (query_stream q model h n w).2
  = calls w' ++ [ChatStream model (_build_messages q (default [] h) context)].
Proof.
  intros Hbook Hctx. split.
  - unfold query. erewrite bind_ok; [|reflexivity]. rewrite Hbook.
    erewrite bind_ok; [|exact Hctx].
    unfold chat, bind, modify. by destruct (post_chat _ _).
  - unfold query_stream. by rewrite Hbook, Hctx.
Qed.

End MoreEngineFacts.

(** * Properties of the caller *)

Section AppFacts.
Context {U : Ucd} `{C : Chroma} {O : Ollama}.

Lemma py_slice_to_init {A} (l : list A) (x : A) :
  py_slice_to (l ++ [x]) (-1) = l.
Proof.
  unfold py_slice_to, py_bound. rewrite length_app. simpl.
  replace (Z.to_nat _) with (length l) by lia.
  apply take_app_length.
Qed.

Lemma query_stream_run q model (hist : list message) n w w' context :
  no_book (current_book w) = false ->
  _build_context q n w = (Ok context, w') ->
  query_stream q model (Some hist) n w
  = chat_stream model (_build_messages q hist context) w'.
Proof. intros Hbook Hctx. unfold query_stream. by rewrite Hbook, Hctx. Qed.

(** X22: when the transfer from the backend breaks during a chat turn,
    the turn adds two messages to the session, the question and an
    assistant message made of the fixed apology and the text of the
    failure; the fragments received before the break are not in it. *)
Theorem chat_input_backend_failure (describe : exn -> str)
    (prompt model : str) (messages : list message) (w w' : world)
    (context e : str) :
  no_book (current_book w) = false ->
  _build_context prompt 5 w = (Ok context, w') ->
  broken (post_chat_stream model (_build_messages prompt messages context))
  = Some e ->
  (chat_input describe prompt model messages w).1
  = messages
    ++ [{| role := lit "user"; content := prompt |};
        {| role := lit "assistant";
           content := lit "Sorry, an error occurred: "
                      ++ lit "Failed to communicate with Ollama: " ++ e |}].
Proof.
  intros Hbook Hctx Hbroken. unfold chat_input. cbn zeta.
  rewrite py_slice_to_init, (query_stream_run _ _ _ _ _ _ _ Hbook Hctx).
  unfold chat_stream. rewrite Hbroken.
  cbn [fst snd fmap option_fmap option_map str_of_exn failed_to_communicate].
  by rewrite <- app_assoc.
Qed.

(** X23: a chat turn with a backend whose transfer ends normally adds the
    question and an assistant message whose content is all message
    contents of the reply put together; the history sent to the backend
    is the session's messages before the turn, so the question is sent
    once. *)
Theorem chat_input_complete (describe : exn -> str)
    (prompt model : str) (messages : list message) (w w' : world)
    (context : str) :
  no_book (current_book w) = false ->
  _build_context prompt 5 w = (Ok context, w') ->
  broken (post_chat_stream model (_build_messages prompt messages context))
  = None ->
  chat_input describe prompt model messages w
  = (messages
     ++ [{| role := lit "user"; content := prompt |};
         {| role := lit "assistant";
            content :=
              concat (default [] <$>
                        lines (post_chat_stream model
                                 (_build_messages prompt messages context))) |}],
     with_call (ChatStream model (_build_messages prompt messages context)) w').
Proof.
  intros Hbook Hctx Hbroken. unfold chat_input. cbn zeta.
  rewrite py_slice_to_init, (query_stream_run _ _ _ _ _ _ _ Hbook Hctx).
  unfold chat_stream. rewrite Hbroken.
  cbn [fst snd fmap option_fmap option_map].
  by rewrite concat_filter_nonempty, <- app_assoc.
Qed.

(** ** Loading a book *)

(** X24: with at least as much fuel as the text has characters,
    [process_uploaded_file] returns: neither the split into pages nor the
    chunking for retrieval can loop forever. *)
Theorem process_uploaded_file_returns (fuel : nat) (describe : exn -> str)
    (t book_name : str) (ss : session) (w : world) :
  (length t <= fuel)%nat ->
  is_Some (process_uploaded_file fuel describe (inr t) book_name ss w).
Proof.
  intros Hfuel. unfold process_uploaded_file.
  destruct (nonempty (strip t)); [|by eexists].
  assert (length (preprocess_text t) <= fuel)%nat as Hp.
  { rewrite preprocess_text_steps.
    pose proof (length_strip (sub_special (sub_ws_runs false t))).
    pose proof (length_sub_special (sub_ws_runs false t)).
    pose proof (length_sub_ws_runs false t). lia. }
  destruct (chunk_text_returns t 2000 0 fuel) as [pages ->]; [lia|lia|done|].
  unfold create_chunks_with_metadata.
  destruct (chunk_text_returns t 1000 200 fuel) as [chunks ->]; [lia|lia|done|].
  destruct (imap _ chunks) as [|c cks]; [by eexists|].
  by destruct (add_documents _ _ _) as [[?|?] ?]; eexists.
Qed.

(** X25: a text that is not blank but of which normalisation leaves
    nothing (it has only characters that are deleted) makes
    [process_uploaded_file] return [False] after the session's text and
    pages were replaced, by this text and by no page; the book is not
    marked as loaded and the store is not touched. *)
Theorem process_uploaded_file_nothing_left (fuel : nat) (describe : exn -> str)
    (t book_name : str) (ss : session) (w : world) :
  strip t <> [] ->
  preprocess_text t = [] ->
  process_uploaded_file fuel describe (inr t) book_name ss w
  = Some (false,
          alert (lit "Could not process the book content.")
            (with_book_pages t [] ss), w).
Proof.
  intros Hne Hp. unfold process_uploaded_file, create_chunks_with_metadata.
  destruct (strip t) eqn:E; [done|]. cbn [nonempty].
  assert (forall cs ov, chunk_text fuel t cs ov = Some []) as Hc.
  { intros cs ov. destruct t as [|c t]; [done|].
    rewrite chunk_text_cons, Hp. by destruct fuel. }
  by rewrite !Hc.
Qed.

(** X26: when the embedding model fails while a book that can be indexed
    (its collection is empty, or it has none and the client accepts its
    name) is indexed, [process_uploaded_file] returns [False] with the
    session's text and pages already those of the new book, while the
    session's current book, its loaded flag, its messages and the
    engine's current book are those of before; the new book's collection
    is left empty. *)
Theorem process_uploaded_file_encode_failure (fuel : nat)
    (describe : exn -> str) (t book_name : str) (ss : session) (w : world)
    (pages : list str) (c : chunk) (chunks : list chunk) :
  indexable w book_name ->
  strip t <> [] ->
  chunk_text fuel t 2000 0 = Some pages ->
  create_chunks_with_metadata fuel t book_name 1000 200 = Some (c :: chunks) ->
  mapM encode (text <$> c :: chunks) = None ->
  exists w',
    process_uploaded_file fuel describe (inr t) book_name ss w
    = Some (false,
            alert (lit "Error: " ++ describe EncodeError)
              (with_book_pages t pages ss), w') /\
    collections w' = <[safe_name book_name := []]> (collections w) /\
    current_book w' = current_book w.
Proof.
  intros Hi Hne Hpages Hchunks Hfail.
  destruct (add_documents_fail_run (c :: chunks) book_name w Hi Hfail)
    as (w' & Hrun & Hcoll & Hbook).
  exists w'. split; [|done].
  unfold process_uploaded_file.
  destruct (strip t) eqn:E; [done|]. cbn [nonempty].
  by rewrite Hpages, Hchunks, Hrun.
Qed.



(** ** Showing a page *)

Lemma split_on_absent sep s :
  Forall (fun c => c <> sep) s -> split_on sep s = [s].
Proof.
  induction 1 as [|c s Hc _ IH]; [done|]. cbn [split_on].
  destruct (N.eqb_spec c sep); [done|]. by rewrite IH.
Qed.

Lemma plain_no_LF s : plain s = true -> Forall (fun c => c <> LF) s.
Proof.
  intros Hp. apply Forall_forall. intros c Hc%list_elem_of_In ->.
  apply (proj1 (forallb_forall _ _) Hp) in Hc.
  by rewrite isspace_LF in Hc.
Qed.

Lemma format_page_plain s :
  plain s = true -> strip s = s -> s <> [] -> format_page s = s.
Proof.
  intros Hp Hs Hne. unfold format_page.
  rewrite (split_on_absent LF s (plain_no_LF s Hp)).
  cbn [List.filter]. rewrite Hs. by destruct s.
Qed.

(** X28: a page cut by [chunk_text] is shown as it is: it has no newline,
    so the formatting of [render_book_reader] finds one paragraph, already
    trimmed, and inserts no line break. *)
Theorem format_page_of_chunk (fuel : nat) (t : str) (cs ov : Z)
    (pages : list str) :
  chunk_text fuel t cs ov = Some pages ->
  Forall (fun p => format_page p = p) pages.
Proof.
  destruct t as [|c t]; [by intros [= <-]|].
  rewrite chunk_text_cons.
  apply (chunk_loop_Forall _ (fun _ => True)); [done| |done|done].
  intros start _ Hne. apply format_page_plain; [|apply strip_idemp|done].
  apply (forallb_elem_of _ _ (preprocess_text (c :: t))).
  - intros x Hx. by apply elem_of_strip, elem_of_py_slice in Hx.
  - apply preprocess_text_plain.
Qed.

End AppFacts.

(** * Further concrete runs *)

Section MoreRunsText.
#[local] Existing Instance ucd_latin1.

(** X3 on the chunks of [abc d]. *)
Lemma chunk_text_chunks_trimmed_witness :
  chunk_text 5 short_text 2 0 = Some [lit "ab"; lit "c"; lit "d"] /\
  Forall (fun c => c <> [] /\ strip c = c) [lit "ab"; lit "c"; lit "d"].
Proof.
  split; [reflexivity|].
  apply (chunk_text_chunks_trimmed 5 short_text 2 0). reflexivity.
Defined.

(** X4 on the chunks of [abc d]. *)
Lemma chunk_text_chunks_plain_witness :
  chunk_text 5 short_text 2 0 = Some [lit "ab"; lit "c"; lit "d"] /\
  Forall (fun c => (forall x, x ∈ c -> x ∈ preprocess_text short_text) /\
                   forallb kept c = true /\ plain c = true)
    [lit "ab"; lit "c"; lit "d"].
Proof.
  split; [reflexivity|].
  apply (chunk_text_chunks_plain 5 short_text 2 0). reflexivity.
Defined.

(** X5 at the default parameters. *)
Lemma chunk_text_chunk_length_witness :
  (1 <= 1000 /\ 0 <= 200 <= Z.max (1000 - 100) 0) /\
  chunk_text 1 market_text 1000 200 = Some [market_text] /\
  Forall (fun c => Z.of_nat (length c) <= 1000 + 100) [market_text].
Proof.
  split; [lia|]. split; [reflexivity|].
  apply (chunk_text_chunk_length 1 market_text 1000 200); [lia|lia|reflexivity].
Defined.

(** X6 at the default parameters. *)
Lemma chunk_text_short_text_witness :
  (0 <= 200 /\ preprocess_text market_text <> [] /\
   Z.of_nat (length (preprocess_text market_text)) <= 1000 - 200) /\
  chunk_text 1 market_text 1000 200 = Some [preprocess_text market_text].
Proof.
  split; [split; [lia|split; [discriminate|vm_compute; discriminate]]|].
  apply (chunk_text_short_text market_text 1000 200);
    [lia|discriminate|vm_compute; discriminate].
Defined.

(** X7 at the parameters of the page split. *)
Lemma chunk_text_terminates_witness :
  (1 <= 2000 /\ 0 <= 0 <= Z.max (2000 - 100) 0 /\
   (length market_text <= 39)%nat) /\
  exists chunks, chunk_text 39 market_text 2000 0 = Some chunks.
Proof.
  split; [split; [lia|split; [lia|vm_compute; lia]]|].
  apply (chunk_text_terminates 39 market_text 2000 0); [lia|lia|vm_compute; lia].
Defined.

(** X8 on the chunks of [abc d]. *)
Lemma create_chunks_with_metadata_chunks_witness :
  chunk_text 5 short_text 2 0 = Some [lit "ab"; lit "c"; lit "d"] /\
  exists cks,
    create_chunks_with_metadata 5 short_text (lit "Dune") 2 0 = Some cks /\
    text <$> cks = [lit "ab"; lit "c"; lit "d"] /\
    forall i c, cks !! i = Some c ->
      source (meta c) = lit "Dune" /\
      chunk_index (meta c) = Z.of_nat i /\
      total_chunks (meta c) = Z.of_nat (length [lit "ab"; lit "c"; lit "d"]).
Proof.
  split; [reflexivity|].
  apply (create_chunks_with_metadata_chunks 5 short_text (lit "Dune") 2 0).
  reflexivity.
Defined.

(** X28 on the chunks of [abc d]. *)
Lemma format_page_of_chunk_witness :
  chunk_text 5 short_text 2 0 = Some [lit "ab"; lit "c"; lit "d"] /\
  Forall (fun p => format_page p = p) [lit "ab"; lit "c"; lit "d"].
Proof.
  split; [reflexivity|].
  apply (format_page_of_chunk 5 short_text 2 0). reflexivity.
Defined.

End MoreRunsText.

Section MoreRunsUp.
#[local] Existing Instance ucd_latin1.
#[local] Existing Instance model_up.
#[local] Existing Instance chroma_of.

(** X11 on a process that has just started. *)
Lemma add_documents_indexes_witness :
  (indexable (fresh model_up) (lit "Dune") /\
   mapM encode (text <$> [dune_chunk]) = Some [[21]]) /\
  exists w',
    add_documents [dune_chunk] (lit "Dune") (fresh model_up)
    = (Ok (Z.of_nat (length [dune_chunk])), w') /\
    collections w'
    = <[safe_name (lit "Dune") := indexed (lit "Dune") [dune_chunk] [[21]]]>
        (collections (fresh model_up)) /\
    length (indexed (lit "Dune") [dune_chunk] [[21]]) = length [dune_chunk] /\
    entry_document <$> indexed (lit "Dune") [dune_chunk] [[21]]
    = text <$> [dune_chunk].
Proof.
  split; [split; [vm_compute|]; reflexivity|].
  apply add_documents_indexes; [vm_compute|]; reflexivity.
Defined.

(** X12 on a process that has just started. *)
Lemma add_documents_twice_witness :
  ([dune_chunk] <> [] /\ indexable (fresh model_up) (lit "Dune") /\
   mapM encode (text <$> [dune_chunk]) = Some [[21]]) /\
  exists w1 w2,
    add_documents [dune_chunk] (lit "Dune") (fresh model_up)
    = (Ok (Z.of_nat (length [dune_chunk])), w1) /\
    add_documents [dune_chunk] (lit "Dune") w1 = (Raise ChromaError, w2) /\
    collections w2 = collections w1.
Proof.
  split; [split; [discriminate|split; [vm_compute|]; reflexivity]|].
  apply (add_documents_twice (H:=model_up) [dune_chunk] [dune_chunk]
           (lit "Dune") _ [[21]]);
    [discriminate|vm_compute; reflexivity|reflexivity].
Defined.

(** X13 on a process that has just started. *)
Lemma add_documents_delete_book_witness :
  (indexable (fresh model_up) (lit "Dune") /\
   mapM encode (text <$> [dune_chunk]) = Some [[21]]) /\
  exists w1 w2,
    add_documents [dune_chunk] (lit "Dune") (fresh model_up)
    = (Ok (Z.of_nat (length [dune_chunk])), w1) /\
    delete_book (lit "Dune") w1 = (Ok true, w2) /\
    collections w2 = delete (safe_name (lit "Dune")) (collections (fresh model_up)) /\
    delete_book (lit "Dune") w2 = (Ok false, w2).
Proof.
  split; [split; [vm_compute|]; reflexivity|].
  apply (add_documents_delete_book (H:=model_up) [dune_chunk] (lit "Dune") _
           [[21]]); [vm_compute|]; reflexivity.
Defined.

(** X16 on a process that has just started. *)
Lemma add_documents_similarity_search_witness :
  indexable (fresh model_up) (lit "Dune") /\
  exists results w1 w2,
    add_documents [dune_chunk] (lit "Dune") (fresh model_up)
    = (Ok (Z.of_nat (length [dune_chunk])), w1) /\
    similarity_search (lit "Who is Paul?") (lit "Dune") 5 w1
    = (Ok ((fun r => {| hit_text := entry_document r.1;
                        hit_metadata := entry_metadata r.1;
                        hit_distance := r.2 |}) <$> results), w2) /\
    collections w2 = collections w1.
Proof.
  split; [vm_compute; reflexivity|].
  eexists.
  eapply (add_documents_similarity_search [dune_chunk] (lit "Dune")
            (lit "Who is Paul?") 5 (fresh model_up));
    [discriminate|vm_compute; reflexivity|reflexivity|reflexivity|reflexivity].
Defined.

(** X17 with a backend out of reach. *)
Lemma query_empty_index_witness :
  (current_book (dune_current model_up) = Some (lit "Dune") /\
   lit "Dune" <> [] /\
   indexable (dune_current model_up) (lit "Dune")) /\
  exists w',
    query (O:=ollama_down) (lit "Who is Paul?") (lit "llama3") None 5
      (dune_current model_up)
    = (Raise (ConnectionError
                (lit "Failed to communicate with Ollama: "
                 ++ lit "connection refused")), w') /\
    calls w'
    = calls (dune_current model_up)
      ++ [SimilaritySearch (lit "Who is Paul?") (lit "Dune") 5;
          Chat (lit "llama3")
            (_build_messages (lit "Who is Paul?") (default [] None)
               no_passages)].
Proof.
  split; [split; [reflexivity|split; [discriminate|vm_compute; reflexivity]]|].
  apply (query_empty_index (O:=ollama_down) (lit "Who is Paul?") (lit "llama3")
           (lit "Dune") None 5 (dune_current model_up));
    [reflexivity|discriminate|vm_compute; reflexivity].
Defined.

(** X20 on a reply of four lines, one without content. *)
Lemma query_stream_complete_witness :
  no_book (current_book (dune_loaded model_up [36])) = false /\
  (query_stream (O:=ollama_ok) (lit "Who is Paul?") (lit "llama3") None 5
     (dune_loaded model_up [36])).1
  = ([lit "The "; lit "cat "; lit "sat."], None).
Proof.
  split; [reflexivity|].
  edestruct (query_stream_complete (O:=ollama_ok) (lit "Who is Paul?")
               (lit "llama3") None 5 (dune_loaded model_up [36]))
    as [Heq _]; [reflexivity|vm_compute; reflexivity|reflexivity|].
  rewrite Heq. reflexivity.
Defined.

End MoreRunsUp.

Section MoreRunsUp2.
#[local] Existing Instance ucd_latin1.
#[local] Existing Instance model_up.
#[local] Existing Instance chroma_of.

(** X21 on a process in which the book is indexed. *)
Lemma query_and_stream_same_messages_witness :
  no_book (current_book (dune_loaded model_up [36])) = false /\
  exists context w',
    _build_context (lit "Who is Paul?") 5 (dune_loaded model_up [36])
    = (Ok context, w') /\
    calls (query (O:=ollama_ok) (lit "Who is Paul?") (lit "llama3") None 5
             (dune_loaded model_up [36])).2
    = calls w' ++ [Chat (lit "llama3")
                     (_build_messages (lit "Who is Paul?") (default [] None)
                        context)] /\
    calls (query_stream (O:=ollama_ok) (lit "Who is Paul?") (lit "llama3")
             None 5 (dune_loaded model_up [36])).2
    = calls w' ++ [ChatStream (lit "llama3")
                     (_build_messages (lit "Who is Paul?") (default [] None)
                        context)].
Proof.
  split; [reflexivity|].
  eexists _, _. split; [vm_compute; reflexivity|].
  apply (query_and_stream_same_messages (O:=ollama_ok));
    [reflexivity|vm_compute; reflexivity].
Defined.

(** X22 on a transfer that breaks after two fragments. *)
Lemma chat_input_backend_failure_witness :
  no_book (current_book (dune_loaded model_up [36])) = false /\
  (chat_input (O:=ollama_cut) some_text (lit "Who is Paul?") (lit "llama3") []
     (dune_loaded model_up [36])).1
  = [] ++ [{| role := lit "user"; content := lit "Who is Paul?" |};
           {| role := lit "assistant";
              content := lit "Sorry, an error occurred: "
                         ++ lit "Failed to communicate with Ollama: "
                         ++ lit "connection reset" |}].
Proof.
  split; [reflexivity|].
  eapply (chat_input_backend_failure (O:=ollama_cut) some_text
            (lit "Who is Paul?") (lit "llama3") [] (dune_loaded model_up [36]));
    [reflexivity|vm_compute; reflexivity|reflexivity].
Defined.

(** X23 on a reply of four lines, one without content. *)
Lemma chat_input_complete_witness :
  no_book (current_book (dune_loaded model_up [36])) = false /\
  (chat_input (O:=ollama_ok) some_text (lit "Who is Paul?") (lit "llama3") []
     (dune_loaded model_up [36])).1
  = [{| role := lit "user"; content := lit "Who is Paul?" |};
     {| role := lit "assistant"; content := lit "The cat sat." |}].
Proof.
  split; [reflexivity|].
  erewrite (chat_input_complete (O:=ollama_ok) some_text
              (lit "Who is Paul?") (lit "llama3") [] (dune_loaded model_up [36]));
    [reflexivity|reflexivity|vm_compute; reflexivity|reflexivity].
Defined.

(** X24 on a text of 21 characters. *)
Lemma process_uploaded_file_returns_witness :
  (length dune_text <= 21)%nat /\
  is_Some (process_uploaded_file 21 some_text (inr dune_text)
             (lit "Dune") new_session (fresh model_up)).
Proof.
  split; [vm_compute; lia|].
  apply (process_uploaded_file_returns). vm_compute. lia.
Defined.

(** X25 on a text of three hash signs. *)
Lemma process_uploaded_file_nothing_left_witness :
  (strip marks_text <> [] /\ preprocess_text marks_text = []) /\
  process_uploaded_file 3 some_text (inr marks_text)
    (lit "Marks") new_session (fresh model_up)
  = Some (false,
          alert (lit "Could not process the book content.")
            (with_book_pages marks_text [] new_session), fresh model_up).
Proof.
  split; [split; [discriminate|reflexivity]|].
  apply (process_uploaded_file_nothing_left);
    [discriminate|reflexivity].
Defined.


End MoreRunsUp2.

Section MoreRunsDown.
#[local] Existing Instance ucd_latin1.
#[local] Existing Instance model_down.
#[local] Existing Instance chroma_of.

(** X18 on a process in which the book is indexed. *)
Lemma query_retrieval_failure_witness :
  (current_book (dune_loaded model_down [37]) = Some (lit "Dune") /\
   lit "Dune" <> [] /\
   collections (dune_loaded model_down [37]) !! safe_name (lit "Dune")
   = Some [dune_entry model_down [37]] /\
   encode (lit "Who is Paul?") = None) /\
  exists w',
    query (O:=ollama_ok) (lit "Who is Paul?") (lit "llama3") None 5
      (dune_loaded model_down [37])
    = (Raise EncodeError, w') /\
    query_stream (O:=ollama_ok) (lit "Who is Paul?") (lit "llama3") None 5
      (dune_loaded model_down [37])
    = (([], Some EncodeError), w') /\
    calls w'
    = calls (dune_loaded model_down [37])
      ++ [SimilaritySearch (lit "Who is Paul?") (lit "Dune") 5].
Proof.
  split; [split; [reflexivity|split; [discriminate|split; reflexivity]]|].
  apply (query_retrieval_failure (H:=model_down) (O:=ollama_ok)
           (lit "Who is Paul?") (lit "llama3") (lit "Dune") None 5
           (dune_loaded model_down [37]) (dune_entry model_down [37]) []);
    [reflexivity|discriminate|reflexivity|reflexivity].
Defined.

(** X26 on a process in which the book is not indexed. *)
Lemma process_uploaded_file_encode_failure_witness :
  (indexable (dune_current model_down) (lit "Dune") /\
   strip dune_text <> [] /\
   chunk_text 21 dune_text 2000 0 = Some [dune_text] /\
   create_chunks_with_metadata 21 dune_text (lit "Dune") 1000 200
   = Some [dune_chunk] /\
   mapM encode (text <$> [dune_chunk]) = None) /\
  exists w',
    process_uploaded_file 21 some_text (inr dune_text)
      (lit "Dune") new_session (dune_current model_down)
    = Some (false,
            alert (lit "Error: " ++ some_text EncodeError)
              (with_book_pages dune_text [dune_text] new_session), w') /\
    collections w'
    = <[safe_name (lit "Dune") := []]>
        (collections (dune_current model_down)) /\
    current_book w' = current_book (dune_current model_down).
Proof.
  split;
    [split; [vm_compute; reflexivity|
     split; [discriminate|split; [reflexivity|split; reflexivity]]]|].
  apply (process_uploaded_file_encode_failure (H:=model_down) 21
           some_text dune_text (lit "Dune") new_session
           (dune_current model_down) [dune_text] dune_chunk []);
    [vm_compute; reflexivity|discriminate|reflexivity|reflexivity|reflexivity].
Defined.

(** X29 on a process that has just started, with the embedding model
    failing. *)
Lemma similarity_search_not_indexed_witness :
  indexable (fresh model_down) (lit "Dune") /\
  exists w' books,
    similarity_search (lit "Who is Paul?") (lit "Dune") 5 (fresh model_down)
    = (Ok [], w') /\
    collections w' !! safe_name (lit "Dune") = Some [] /\
    list_books w' = (Ok books, w') /\
    safe_name (lit "Dune") ∈ books.
Proof.
  split; [vm_compute; reflexivity|].
  apply similarity_search_not_indexed. vm_compute. reflexivity.
Defined.


(** C1 on a process in which [Dune] is indexed with one entry: indexing
    it again raises, and the entry is still there. *)
Lemma add_documents_failure_keeps_index_witness :
  (collections (dune_loaded model_down [37]) !! safe_name (lit "Dune")
   = Some [dune_entry model_down [37]] /\
   (add_documents [dune_chunk] (lit "Dune") (dune_loaded model_down [37])).1
   = Raise ChromaError) /\
  collections
    (add_documents [dune_chunk] (lit "Dune") (dune_loaded model_down [37])).2
    !! safe_name (lit "Dune")
  = Some [dune_entry model_down [37]].
Proof.
  split; [split; reflexivity|].
  apply (add_documents_failure_keeps_index (H:=model_down) [dune_chunk]
           (lit "Dune") (dune_loaded model_down [37])
           (add_documents [dune_chunk] (lit "Dune")
              (dune_loaded model_down [37])).2
           ChromaError [dune_entry model_down [37]]);
    [reflexivity|vm_compute; reflexivity].
Defined.

(** C5 fails on the code: the collection name of the book [It] has two
    characters, the client refuses it, and the search of a book that was
    never indexed raises instead of returning the empty list. *)
Theorem similarity_search_short_name_raises :
  safe_name (lit "It") = lit "It" /\
  collections (fresh model_down) !! safe_name (lit "It") = None /\
  (similarity_search (lit "Who?") (lit "It") 5 (fresh model_down)).1
  = Raise ChromaError.
Proof. vm_compute. done. Qed.

(** C9 fails on the code: the collection name of the book [My Book!]
    ends with an underscore, the client refuses it, and the search raises
    and creates no collection: [list_books] returns no name after it. *)
Theorem similarity_search_refused_name_creates_nothing :
  safe_name (lit "My Book!") = lit "My_Book_" /\
  (similarity_search (lit "Who?") (lit "My Book!") 5 (fresh model_down)).1
  = Raise ChromaError /\
  collections
    (similarity_search (lit "Who?") (lit "My Book!") 5 (fresh model_down)).2
  = ∅ /\
  (list_books
     (similarity_search (lit "Who?") (lit "My Book!") 5 (fresh model_down)).2).1
  = Ok [].
Proof. vm_compute. done. Qed.

End MoreRunsDown.
